(** * Edit Breakdown add-on: the thumbnail layout engine

    A shallow embedding of [src/__init__.py]: the thumbnail globals, the
    image provider [load_edit_thumbnails], the layout pass
    [fit_thumbnails_in_region], the draw handler [draw_edit_thumbnails] and
    the sync operator.

    Python mixes [int] and [float] values.  Integers are [Z].  Floats are a
    type [F] with the operations of the class [PyFloat], and the code is
    written once over that class.  The program runs at the instance
    [FloatArith], the IEEE binary64 numbers of the kernel, which are
    Python's floats and in which every definition evaluates.  Statements
    are made for every instance of the class when they do not depend on
    how a number is rounded, and at [FloatArith] otherwise.  [RealArith],
    arithmetic without rounding, is not the program's: it serves the one
    statement on the visibility threshold, whose test divides and compares
    integers.

    An exception aborts a call: the model says which exception is raised and
    does not track the globals an aborted call leaves behind. *)

From Stdlib Require Import ZArith List Ascii String Bool Lia.
From Stdlib Require Import Reals Lra.
From Stdlib Require PrimFloat FloatOps SpecFloat Uint63.
Import ListNotations.

Local Open Scope Z_scope.

(** ** Exceptions *)

Inductive exn : Type :=
| ZeroDivisionError
| ValueError
| OverflowError
| AttributeError
| FileNotFoundError
| OSError
| Exception.

(** A Python expression either yields a value or raises. *)
Inductive py (A : Type) : Type :=
| Ok (a : A)
| Raise (e : exn).

Arguments Ok {A} a.
Arguments Raise {A} e.

Definition py_bind {A B : Type} (c : py A) (k : A -> py B) : py B :=
  match c with
  | Ok a => k a
  | Raise e => Raise e
  end.

Declare Scope py_scope.
Delimit Scope py_scope with py.
Notation "x <- c ;; k" := (py_bind c (fun x => k))
  (at level 61, c at next level, right associativity) : py_scope.
Notation "' p <- c ;; k" := (py_bind c (fun x => let p := x in k))
  (at level 61, p pattern, c at next level, right associativity) : py_scope.

(** ** Float arithmetic as the code uses it *)

Class PyFloat (F : Type) : Type := {
  of_int : Z -> F;                 (* an int operand of a float operation *)
  fadd : F -> F -> F;
  fsub : F -> F -> F;
  fmul : F -> F -> F;
  truediv : F -> F -> py F;        (* [/]: ZeroDivisionError on a zero divisor *)
  fsqrt : F -> py F;               (* math.sqrt: ValueError below zero *)
  fceil : F -> py Z;               (* math.ceil *)
  ffloor : F -> py Z;              (* math.floor *)
  flt : F -> F -> bool;            (* [<]; [a > b] is [flt b a] *)
  fle : F -> F -> bool             (* [<=] *)
}.

(** *** Arithmetic without rounding *)

Definition Rtruediv (x y : R) : py R :=
  if Req_dec_T y 0 then Raise ZeroDivisionError else Ok (x / y)%R.

Definition Rsqrt_py (x : R) : py R :=
  if Rlt_dec x 0 then Raise ValueError else Ok (sqrt x).

Definition Rltb (x y : R) : bool := if Rlt_dec x y then true else false.
Definition Rleb (x y : R) : bool := if Rle_dec x y then true else false.

#[export] Instance RealArith : PyFloat R := {
  of_int := IZR;
  fadd := Rplus;
  fsub := Rminus;
  fmul := Rmult;
  truediv := Rtruediv;
  fsqrt := Rsqrt_py;
  fceil := fun x => Ok (Zceil x);
  ffloor := fun x => Ok (Zfloor x);
  flt := Rltb;
  fle := Rleb
}.

(** *** IEEE binary64 *)

Module Float64.

Import SpecFloat.

(** [float(z)]; exact for |z| < 2^53, the range of pixel counts. *)
Definition of_Z (z : Z) : PrimFloat.float :=
  match z with
  | Z0 => PrimFloat.zero
  | Zpos _ => PrimFloat.of_uint63 (Uint63.of_Z z)
  | Zneg p => PrimFloat.opp (PrimFloat.of_uint63 (Uint63.of_Z (Zpos p)))
  end.

Definition truediv (x y : PrimFloat.float) : py PrimFloat.float :=
  if PrimFloat.eqb y PrimFloat.zero then Raise ZeroDivisionError
  else Ok (PrimFloat.div x y).

Definition sqrt (x : PrimFloat.float) : py PrimFloat.float :=
  if PrimFloat.ltb x PrimFloat.zero then Raise ValueError
  else Ok (PrimFloat.sqrt x).

(** The integer part of m * 2^e towards minus infinity. *)
Definition floor_mag (m : positive) (e : Z) : Z :=
  if 0 <=? e then Z.shiftl (Zpos m) e else Z.shiftr (Zpos m) (- e).

Definition is_integral (m : positive) (e : Z) : bool :=
  if 0 <=? e then true else Z.land (Zpos m) (Z.ones (- e)) =? 0.

Definition floor (x : PrimFloat.float) : py Z :=
  match FloatOps.Prim2SF x with
  | S754_zero _ => Ok 0
  | S754_finite s m e =>
      let q := floor_mag m e in
      Ok (if s then (if is_integral m e then - q else - q - 1) else q)
  | S754_infinity _ => Raise OverflowError
  | S754_nan => Raise ValueError
  end.

Definition ceil (x : PrimFloat.float) : py Z :=
  match FloatOps.Prim2SF x with
  | S754_zero _ => Ok 0
  | S754_finite s m e =>
      let q := floor_mag m e in
      Ok (if s then - q else (if is_integral m e then q else q + 1))
  | S754_infinity _ => Raise OverflowError
  | S754_nan => Raise ValueError
  end.

End Float64.

#[export] Instance FloatArith : PyFloat PrimFloat.float := {
  of_int := Float64.of_Z;
  fadd := PrimFloat.add;
  fsub := PrimFloat.sub;
  fmul := PrimFloat.mul;
  truediv := Float64.truediv;
  fsqrt := Float64.sqrt;
  fceil := Float64.ceil;
  ffloor := Float64.floor;
  flt := PrimFloat.ltb;
  fle := PrimFloat.leb
}.

(** ** Host data: images, regions, the context *)

(** A Blender ID image: its pixel size and what [gl_load()] answers
    ([true] stands for a non-zero error code). *)
Record Image : Type := {
  size : Z * Z;
  gl_load : bool
}.

(** One region of an area: [r.type], [r.width], [r.height]. *)
Record Region : Type := {
  rtype : string;
  width : Z;
  height : Z
}.

(** What the code reads from [bpy.context]. *)
Record BpyContext : Type := {
  region : Region;                  (* bpy.context.region *)
  area_regions : list Region;       (* bpy.context.area.regions *)
  use_region_overlap : bool;        (* preferences.system.use_region_overlap *)
  edit_shots_folder : string        (* addon_prefs.edit_shots_folder *)
}.

(** What the code asks of the file system and of built-ins. *)
Record World : Type := {
  listdir : string -> py (list string);              (* os.listdir *)
  load_image : string -> string -> option Image;     (* load_image(filename, dirname=...) *)
  int_of_str : string -> py Z                        (* int(str) *)
}.

Inductive LogRecord : Type :=
| LogWarning (folder_name : string)    (* "Reading thumbnail images from ... failed" *)
| LogInfo (num_images : nat).          (* "Loaded ... images." *)

(** Lines 306-307. *)
Definition total_spacing : Z * Z := (150, 150).
Definition min_margin : Z := 40.

(** Lines 288-301: the size of the region that holds the thumbnails, with
    the overlapping header and side panels discounted, and the shift
    [start_w] past the tools panel.  [discount_region] is one turn of the
    loop over [area.regions]. *)
Definition discount_region (acc : Z * Z * Z) (r : Region) : Z * Z * Z :=
  let '(total_available_w, total_available_h, start_w) := acc in
  let total_available_h :=
    if (rtype r =? "HEADER")%string && (1 <? height r)
    then total_available_h - height r else total_available_h in
  let total_available_w :=
    if (rtype r =? "UI")%string && (1 <? width r)
    then total_available_w - width r else total_available_w in
  if (rtype r =? "TOOLS")%string && (1 <? width r)
  then (total_available_w - width r, total_available_h, width r)
  else (total_available_w, total_available_h, start_w).

Definition region_size (ctx : BpyContext) : Z * Z * Z :=
  let total_available_w := width (region ctx) in
  let total_available_h := height (region ctx) in
  let start_w := 0 in
  if use_region_overlap ctx
  then fold_left discount_region (area_regions ctx)
         (total_available_w, total_available_h, start_w)
  else (total_available_w, total_available_h, start_w).

(** ** The program, over any float arithmetic *)

Section Program.

Context {F : Type} {PF : PyFloat F}.

Local Open Scope py_scope.

(** class ThumbnailImage (lines 217-222). *)
Record ThumbnailImage : Type := {
  id_image : option Image;     (* None: load_image found nothing *)
  pos : F * F;
  name : Z
}.

Definition set_pos (img : ThumbnailImage) (p : F * F) : ThumbnailImage :=
  {| id_image := id_image img; pos := p; name := name img |}.

(** The module globals (lines 224-225), the records sent to the logger by
    [load_edit_thumbnails] and the calls made to
    [draw_utils.draw_thumbnails].  [log.debug] lines are not modelled. *)
Record State : Type := {
  thumbnail_images : list ThumbnailImage;
  thumbnail_size : F * F;
  log_records : list LogRecord;
  draw_calls : list (list ThumbnailImage * (F * F))
}.

Definition set_thumbnail_size (sz : F * F) (st : State) : State :=
  {| thumbnail_images := thumbnail_images st;
     thumbnail_size := sz;
     log_records := log_records st;
     draw_calls := draw_calls st |}.

Definition set_thumbnail_images (imgs : list ThumbnailImage) (st : State) : State :=
  {| thumbnail_images := imgs;
     thumbnail_size := thumbnail_size st;
     log_records := log_records st;
     draw_calls := draw_calls st |}.

Definition add_log (r : LogRecord) (st : State) : State :=
  {| thumbnail_images := thumbnail_images st;
     thumbnail_size := thumbnail_size st;
     log_records := log_records st ++ [r];
     draw_calls := draw_calls st |}.

Definition add_draw_call (st : State) : State :=
  {| thumbnail_images := thumbnail_images st;
     thumbnail_size := thumbnail_size st;
     log_records := log_records st;
     draw_calls := draw_calls st ++ [(thumbnail_images st, thumbnail_size st)] |}.

(** *** calculate_spacing (lines 351-367) *)
Definition calculate_spacing (total_available : Z) (thumb_size : F) (num_thumbs : Z)
  : py (Z * Z) :=
  let available_space := fsub (of_int total_available) (fmul thumb_size (of_int num_thumbs)) in
  spacing <-
    (if 1 <? num_thumbs then
       spacing <- truediv (fsub available_space (of_int min_margin)) (of_int (num_thumbs - 1)) ;;
       c <- fceil spacing ;;
       Ok (Z.min c min_margin)
     else Ok 0) ;;
  margin <- truediv (fsub available_space (of_int (spacing * (num_thumbs - 1)))) (of_int 2) ;;
  margin <- ffloor margin ;;
  Ok (margin, spacing).

(** *** The locals of the layout pass *)
Record Layout : Type := {
  l_area_scale_factor : F;        (* scale_factor of line 326 *)
  l_num_images_per_row : Z;
  l_num_images_per_col : Z;
  l_scale_factor : F;             (* scale_factor after lines 340-343 *)
  l_thumbnail_size : F * F;       (* thumbnail_size of line 346 *)
  l_margins : Z * Z;
  l_spacing : Z * Z;
  l_start_pos_x : Z;
  l_start_pos_y : F;
  l_last_start_pos_x : Z
}.

(** Lines 326-332: the scale that fits the area, and the grid it gives. *)
Definition area_scale_factor (thumbnail_area : F) (original_image_w original_image_h : Z)
  : py F :=
  q <- truediv thumbnail_area (of_int (original_image_w * original_image_h)) ;;
  fsqrt q.

Definition images_per_row_col (available_w num_images : Z) (thumbnail_w : F)
  : py (Z * Z) :=
  q <- truediv (of_int available_w) thumbnail_w ;;
  num_images_per_row <- fceil q ;;
  q <- truediv (of_int num_images) (of_int num_images_per_row) ;;
  num_images_per_col <- fceil q ;;
  Ok (num_images_per_row, num_images_per_col).

(** Lines 340-343: reduce the scale until a row and a column fit. *)
Definition reduce_scale_factor (original_image_w original_image_h : Z)
    (num_images_per_row num_images_per_col : Z) (max_thumb_size : Z * Z)
    (scale_factor : F) : py F :=
  scale_factor <-
    (if flt (of_int (fst max_thumb_size))
            (fmul (fmul (of_int original_image_w) scale_factor) (of_int num_images_per_row))
     then truediv (of_int (fst max_thumb_size))
                  (of_int (original_image_w * num_images_per_row))
     else Ok scale_factor) ;;
  if flt (of_int (snd max_thumb_size))
         (fmul (fmul (of_int original_image_h) scale_factor) (of_int num_images_per_col))
  then truediv (of_int (snd max_thumb_size))
               (of_int (original_image_h * num_images_per_col))
  else Ok scale_factor.

(** Lines 305-380, once the region size and the size of the first image are
    known: [None] is the early out of line 323. *)
Definition layout (total_available_w total_available_h start_w : Z) (num_images : Z)
    (original_image_w original_image_h : Z) : py (option Layout) :=
  let available_w := total_available_w - fst total_spacing in
  let available_h := total_available_h - snd total_spacing in
  let max_thumb_size := (total_available_w - min_margin, total_available_h - min_margin) in
  image_aspect_ratio <- truediv (of_int original_image_w) (of_int original_image_h) ;;
  let available_area := available_w * available_h in
  thumbnail_area <- truediv (of_int available_area) (of_int num_images) ;;
  if flt thumbnail_area (of_int 20) then Ok None else
  scale_factor0 <- area_scale_factor thumbnail_area original_image_w original_image_h ;;
  let thumbnail_size0 := (fmul (of_int original_image_w) scale_factor0,
                          fmul (of_int original_image_h) scale_factor0) in
  '(num_images_per_row, num_images_per_col) <-
     images_per_row_col available_w num_images (fst thumbnail_size0) ;;
  scale_factor <- reduce_scale_factor original_image_w original_image_h
                    num_images_per_row num_images_per_col max_thumb_size scale_factor0 ;;
  let thumbnail_size1 := (fmul (of_int original_image_w) scale_factor,
                          fmul (of_int original_image_h) scale_factor) in
  space_w <- calculate_spacing total_available_w (fst thumbnail_size1) num_images_per_row ;;
  space_h <- calculate_spacing total_available_h (snd thumbnail_size1) num_images_per_col ;;
  let margins := (fst space_w, fst space_h) in
  let spacing := (snd space_w, snd space_h) in
  let start_pos_y :=
    fsub (fsub (of_int total_available_h) (snd thumbnail_size1)) (of_int (snd margins)) in
  c <- fceil (fadd (of_int (fst margins))
                (fmul (of_int (num_images_per_row - 1))
                   (fadd (fst thumbnail_size1) (of_int (fst spacing))))) ;;
  Ok (Some {| l_area_scale_factor := scale_factor0;
              l_num_images_per_row := num_images_per_row;
              l_num_images_per_col := num_images_per_col;
              l_scale_factor := scale_factor;
              l_thumbnail_size := thumbnail_size1;
              l_margins := margins;
              l_spacing := spacing;
              l_start_pos_x := start_w + fst margins;
              l_start_pos_y := start_pos_y;
              l_last_start_pos_x := start_w + c |}).

(** Lines 382-388: the loop over the images, [start_pos_x] and
    [start_pos_y] being the loop-carried variables. *)
Fixpoint place_thumbnails (L : Layout) (imgs : list ThumbnailImage)
    (start_pos_x start_pos_y : F) : list ThumbnailImage :=
  match imgs with
  | [] => []
  | img :: rest =>
      let img := set_pos img (start_pos_x, start_pos_y) in
      let start_pos_x :=
        fadd start_pos_x (fadd (fst (l_thumbnail_size L)) (of_int (fst (l_spacing L)))) in
      if flt (of_int (l_last_start_pos_x L)) start_pos_x
      then img :: place_thumbnails L rest
                    (of_int (l_start_pos_x L))
                    (fsub start_pos_y
                       (fadd (snd (l_thumbnail_size L)) (of_int (snd (l_spacing L)))))
      else img :: place_thumbnails L rest start_pos_x start_pos_y
  end.

(** [thumbnail_images[0].id_image.size] (lines 314-315, reached with a
    non-empty list only). *)
Definition original_image_size (imgs : list ThumbnailImage) : py (Z * Z) :=
  match imgs with
  | [] => Raise Exception
  | img :: _ =>
      match id_image img with
      | None => Raise AttributeError
      | Some im => Ok (size im)
      end
  end.

(** *** fit_thumbnails_in_region (lines 264-388) *)
Definition fit_thumbnails_in_region (ctx : BpyContext) (st : State) : py State :=
  let num_images := Z.of_nat (List.length (thumbnail_images st)) in
  if num_images =? 0 then Ok st else
  let '(total_available_w, total_available_h, start_w) := region_size ctx in
  '(original_image_w, original_image_h) <- original_image_size (thumbnail_images st) ;;
  l <- layout total_available_w total_available_h start_w num_images
         original_image_w original_image_h ;;
  match l with
  | None => Ok (set_thumbnail_size (of_int 0, of_int 0) st)
  | Some L =>
      Ok (set_thumbnail_images
            (place_thumbnails L (thumbnail_images st)
               (of_int (l_start_pos_x L)) (l_start_pos_y L))
            (set_thumbnail_size (l_thumbnail_size L) st))
  end.

(** *** load_edit_thumbnails (lines 228-261) *)

(** [filename.split('.')[0]]: the text before the first dot. *)
Fixpoint before_dot (s : string) : string :=
  match s with
  | EmptyString => EmptyString
  | String c rest => if Ascii.eqb c "."%char then EmptyString else String c (before_dot rest)
  end.

(** The body of the [for filename in os.listdir(folder_name)] loop; [imgs]
    is the global list, appended to. *)
Fixpoint load_files (w : World) (folder_name : string) (filenames : list string)
    (imgs : list ThumbnailImage) : py (list ThumbnailImage) :=
  match filenames with
  | [] => Ok imgs
  | filename :: rest =>
      let id := load_image w filename folder_name in
      n <- int_of_str w (before_dot filename) ;;
      load_files w folder_name rest
        (imgs ++ [{| id_image := id; pos := (of_int 0, of_int 0); name := n |}])
  end.

(** [list.sort(key=lambda x: x.name)]: ascending and stable.  The images
    are inserted from the last to the first, each before the first image
    whose number is not smaller, so equal numbers keep their order. *)
Fixpoint insert_by_name (img : ThumbnailImage) (sorted : list ThumbnailImage)
  : list ThumbnailImage :=
  match sorted with
  | [] => [img]
  | x :: rest => if name img <=? name x then img :: x :: rest
                 else x :: insert_by_name img rest
  end.

Definition sort_by_name (imgs : list ThumbnailImage) : list ThumbnailImage :=
  fold_right insert_by_name [] imgs.

(** Lines 256-258: upload every image, raising on the first failure. *)
Fixpoint gl_load_all (imgs : list ThumbnailImage) : py unit :=
  match imgs with
  | [] => Ok tt
  | img :: rest =>
      match id_image img with
      | None => Raise AttributeError
      | Some im => if gl_load im then Raise Exception else gl_load_all rest
      end
  end.

Definition load_edit_thumbnails (ctx : BpyContext) (w : World) (st : State) : py State :=
  let folder_name := edit_shots_folder ctx in
  st <-
    match listdir w folder_name with
    | Ok filenames =>
        imgs <- load_files w folder_name filenames (thumbnail_images st) ;;
        Ok (set_thumbnail_images imgs st)
    | Raise FileNotFoundError => Ok (add_log (LogWarning folder_name) st)
    | Raise e => Raise e
    end ;;
  let st := set_thumbnail_images (sort_by_name (thumbnail_images st)) st in
  _ <- gl_load_all (thumbnail_images st) ;;
  let num_images := List.length (thumbnail_images st) in
  Ok (add_log (LogInfo num_images) st).

(** *** draw_edit_thumbnails (lines 391-406) *)
Definition draw_edit_thumbnails (ctx : BpyContext) (w : World) (st : State) : py State :=
  st <- (match thumbnail_images st with
         | [] => load_edit_thumbnails ctx w st
         | _ :: _ => Ok st
         end) ;;
  st <- fit_thumbnails_in_region ctx st ;;
  if fle (fst (thumbnail_size st)) (of_int 5) || fle (snd (thumbnail_size st)) (of_int 5)
  then Ok st
  else Ok (add_draw_call st).

End Program.

Arguments ThumbnailImage F : clear implicits.
Arguments State F : clear implicits.
Arguments Layout F : clear implicits.

(** ** Vocabulary of the statements *)

(** The summed extent of the visible regions of one type, visible meaning
    more than one pixel along [extent]. *)
Definition visible_extent (ty : string) (extent : Region -> Z) (rs : list Region) : Z :=
  fold_right
    (fun r acc => if (rtype r =? ty)%string && (1 <? extent r) then extent r + acc else acc)
    0 rs.

(** The width of the last visible tools panel, [dflt] when there is none. *)
Definition tools_offset (dflt : Z) (rs : list Region) : Z :=
  fold_left
    (fun acc r => if (rtype r =? "TOOLS")%string && (1 <? width r) then width r else acc)
    rs dflt.

(** What a region discounts: nothing when it is at most one pixel. *)
Definition visible (extent : Z) : Z := if 1 <? extent then extent else 0.


(** What an axis has left once its thumbnails are laid side by side
    (line 353), in the arithmetic of the program. *)
Definition leftover {F : Type} {PF : PyFloat F} (total_available : Z) (thumb_size : F)
    (count : Z) : F :=
  fsub (of_int total_available) (fmul thumb_size (of_int count)).

(** The position of the image of index [i]. *)
Definition position_of {F : Type} (st : State F) (i : nat) : option (F * F) :=
  option_map (fun img => pos img) (nth_error (thumbnail_images st) i).




(** ** Sample inputs *)

(** An editor whose window region is [w] by [h] pixels, nothing overlapping. *)
Definition window (w h : Z) : BpyContext :=
  {| region := {| rtype := "WINDOW"; width := w; height := h |};
     area_regions := [];
     use_region_overlap := false;
     edit_shots_folder := "thumbs" |}.

Definition thumbnail {F : Type} {PF : PyFloat F} (w h : Z) (key : Z) : ThumbnailImage F :=
  {| id_image := Some {| size := (w, h); gl_load := false |};
     pos := (of_int 0, of_int 0);
     name := key |}.

(** The globals as the module defines them, holding [imgs]. *)
Definition initial_state {F : Type} {PF : PyFloat F} (imgs : list (ThumbnailImage F))
  : State F :=
  {| thumbnail_images := imgs;
     thumbnail_size := (of_int 0, of_int 0);
     log_records := [];
     draw_calls := [] |}.

(** A file system in which no folder exists. *)
Definition no_folder : World :=
  {| listdir := fun _ => Raise FileNotFoundError;
     load_image := fun _ _ => None;
     int_of_str := fun _ => Raise ValueError |}.

(** An editor 126 pixels wide and 50 high, under an overlapping UI panel
    300 pixels wide. *)
Definition narrow_editor : BpyContext :=
  {| region := {| rtype := "WINDOW"; width := 126; height := 50 |};
     area_regions := [ {| rtype := "UI"; width := 300; height := 50 |} ];
     use_region_overlap := true;
     edit_shots_folder := "thumbs" |}.

(** * The rest of the add-on *)

From Stdlib Require Import Sorted Permutation.

(** Images in ascending order of their number. *)
Definition by_name {F : Type} (a b : ThumbnailImage F) : Prop := (name a <= name b)%Z.

(** The image the loader appends for the file [filename], numbered [key]. *)
Definition new_thumbnail {F : Type} {PF : PyFloat F} (w : World) (folder_name : string)
    (filename : string) (key : Z) : ThumbnailImage F :=
  {| id_image := load_image w filename folder_name;
     pos := (of_int 0, of_int 0);
     name := key |}.

From Stdlib Require Import DecimalString.

(** ** Shots and the sync operator (src/__init__.py, lines 53-137) *)

(** How a call of the operator ends: [IndexError] is raised by indexing an
    empty collection; [Raised] carries the exceptions of the calls above. *)
Inductive outcome (A : Type) : Type :=
| Finished (a : A)
| IndexError
| Raised (e : exn).

Arguments Finished {A} a.
Arguments IndexError {A}.
Arguments Raised {A} e.

Definition of_py {A : Type} (c : py A) : outcome A :=
  match c with
  | Ok a => Finished a
  | Raise e => Raised e
  end.

(** Assigning to an [IntProperty]: the host stores 32-bit integers and
    raises on a value out of their range. *)
Definition int_property (z : Z) : py Z :=
  if (- 2 ^ 31 <=? z) && (z <? 2 ^ 31) then Ok z else Raise ValueError.

(** [str] of an int. *)
Definition str_of_int (z : Z) : string := NilZero.string_of_int (Z.to_int z).

(** class SEQUENCER_EditBreakdown_Shot (lines 53-64). *)
Record Shot : Type := {
  shot_name : string;
  frame_start : Z;
  duration : Z;
  character_count : Z;
  animation_complexity : string;
  has_fx : bool;
  has_crowd : bool
}.

(** What [shots.add()] returns: every property at its default. *)
Definition default_shot : Shot :=
  {| shot_name := "";
     frame_start := 0;
     duration := 0;
     character_count := 0;
     animation_complexity := "1";
     has_fx := false;
     has_crowd := false |}.

Definition set_duration (shot : Shot) (d : Z) : Shot :=
  {| shot_name := shot_name shot;
     frame_start := frame_start shot;
     duration := d;
     character_count := character_count shot;
     animation_complexity := animation_complexity shot;
     has_fx := has_fx shot;
     has_crowd := has_crowd shot |}.

(** What the operator reads and writes of [context.scene]: the end of the
    frame range, the shots of the edit breakdown and the total it assigns
    to [total_shot_duration]. *)
Record Scene : Type := {
  frame_end : Z;
  shots : list Shot;
  total_shot_duration : Z
}.

(** The loop of lines 91-94 over [reversed(shots)]: [rev_shots] is the
    collection from its last shot to its first; the result is in the same
    order, with the total. *)
Fixpoint duration_loop (rev_shots : list Shot) (last_frame total_duration_frames : Z)
  : py (list Shot * Z) :=
  match rev_shots with
  | [] => Ok ([], total_duration_frames)
  | shot :: rest =>
      (d <- int_property (last_frame - frame_start shot) ;;
       let shot := set_duration shot d in
       let last_frame := frame_start shot in
       let total_duration_frames := total_duration_frames + duration shot in
       r <- duration_loop rest last_frame total_duration_frames ;;
       Ok (shot :: fst r, snd r))%py
  end.

(** calculate_shots_duration (lines 86-100). *)
Definition calculate_shots_duration (scene : Scene) : outcome Scene :=
  match rev (shots scene) with
  | [] => IndexError                          (* shots[-1] *)
  | last_shot :: _ =>
      let total_duration_frames := 0 in
      let last_frame := Z.max (frame_end scene) (frame_start last_shot) in
      match duration_loop (rev (shots scene)) last_frame total_duration_frames with
      | Raise e => Raised e
      | Ok (rev_shots, total_duration_frames) =>
          Finished {| frame_end := frame_end scene;
                      shots := rev rev_shots;
                      total_shot_duration := total_duration_frames |}
      end
  end.

Section Operator.

Context {F : Type} {PF : PyFloat F}.

(** The loop of lines 125-129: one new shot per thumbnail.  The
    assignment of [thumbnail_image], a plain class attribute, is not
    modelled. *)
Fixpoint add_shots (imgs : list (ThumbnailImage F)) (shots : list Shot) : py (list Shot) :=
  match imgs with
  | [] => Ok shots
  | img :: rest =>
      (start <- int_property (name img) ;;
       let new_shot :=
         {| shot_name := str_of_int (name img);
            frame_start := start;
            duration := duration default_shot;
            character_count := character_count default_shot;
            animation_complexity := animation_complexity default_shot;
            has_fx := has_fx default_shot;
            has_crowd := has_crowd default_shot |} in
       add_shots rest (shots ++ [new_shot]))%py
  end.

(** SEQUENCER_OT_sync_edit_breakdown.execute (lines 106-137). *)
Definition execute (ctx : BpyContext) (w : World) (scene : Scene) (st : State F)
  : outcome (Scene * State F) :=
  let st := set_thumbnail_images [] st in              (* thumbnail_images.clear() *)
  let scene := {| frame_end := frame_end scene;        (* shots.clear() *)
                  shots := [];
                  total_shot_duration := total_shot_duration scene |} in
  match load_edit_thumbnails ctx w st with
  | Raise e => Raised e
  | Ok st =>
      match add_shots (thumbnail_images st) (shots scene) with
      | Raise e => Raised e
      | Ok new_shots =>
          match calculate_shots_duration
                  {| frame_end := frame_end scene;
                     shots := new_shots;
                     total_shot_duration := total_shot_duration scene |} with
          | IndexError => IndexError
          | Raised e => Raised e
          | Finished scene =>
              match fit_thumbnails_in_region ctx st with
              | Raise e => Raised e
              | Ok st => Finished (scene, st)
              end
          end
      end
  end.

End Operator.

(** The durations of shots starting at [starts]: each shot lasts until
    the next one starts, the last one until [end_frame]. *)
Fixpoint shot_durations (starts : list Z) (end_frame : Z) : list Z :=
  match starts with
  | [] => []
  | s :: rest =>
      match rest with
      | [] => [end_frame - s]
      | s' :: _ => (s' - s) :: shot_durations rest end_frame
      end
  end.

(** A frame number far from the ends of the 32-bit range. *)
Definition frame_range (z : Z) : Prop := (- 2 ^ 30 <= z < 2 ^ 30)%Z.

(** ** More sample inputs *)

(** [int] on a string of ASCII digits; the sample folders hold no other
    name that [int] accepts. *)
Definition digit_of (c : ascii) : option Z :=
  let n := Z.of_nat (nat_of_ascii c) in
  if (48 <=? n)%Z && (n <=? 57)%Z then Some (n - 48)%Z else None.

Fixpoint digits_value (s : string) (acc : Z) : option Z :=
  match s with
  | EmptyString => Some acc
  | String c rest =>
      match digit_of c with
      | Some d => digits_value rest (10 * acc + d)%Z
      | None => None
      end
  end.

Definition int_of_digits (s : string) : py Z :=
  match s with
  | EmptyString => Raise ValueError
  | _ => match digits_value s 0 with
         | Some z => Ok z
         | None => Raise ValueError
         end
  end.

(** A file system in which every folder holds [files], each a readable
    picture of 16 by 9 pixels. *)
Definition folder_of (files : list string) : World :=
  {| listdir := fun _ => Ok files;
     load_image := fun _ _ => Some {| size := (16, 9); gl_load := false |};
     int_of_str := int_of_digits |}.

(** A folder that cannot be read. *)
Definition locked_folder : World :=
  {| listdir := fun _ => Raise OSError;
     load_image := fun _ _ => None;
     int_of_str := int_of_digits |}.

(** Four square images, numbered 1 to 4. *)
Definition four_thumbnails {F : Type} {PF : PyFloat F} : list (ThumbnailImage F) :=
  [thumbnail 1 1 1; thumbnail 1 1 2; thumbnail 1 1 3; thumbnail 1 1 4].

(** A shot starting at [start], its duration not yet computed. *)
Definition shot_at (start : Z) : Shot :=
  {| shot_name := str_of_int start;
     frame_start := start;
     duration := duration default_shot;
     character_count := character_count default_shot;
     animation_complexity := animation_complexity default_shot;
     has_fx := has_fx default_shot;
     has_crowd := has_crowd default_shot |}.

(** A scene ending at frame [end_frame] whose shots start at [starts]. *)
Definition scene_of (end_frame : Z) (starts : list Z) : Scene :=
  {| frame_end := end_frame;
     shots := map shot_at starts;
     total_shot_duration := 0 |}.
(** * Properties *)

(** ** Running the error monad *)

Lemma py_bind_ok {A B : Type} (c : py A) (k : A -> py B) (b : B) :
  py_bind c k = Ok b -> exists a, c = Ok a /\ k a = Ok b.
Proof.
  destruct c as [a|e]; simpl; intros H.
  - exists a. split; [reflexivity | exact H].
  - discriminate H.
Qed.

Lemma py_bind_of_ok {A B : Type} (c : py A) (k : A -> py B) (a : A) :
  c = Ok a -> py_bind c k = k a.
Proof. intros ->. reflexivity. Qed.

(** Peel the first statement of a run that is known to return. *)
Ltac bind_inv H x Hx :=
  apply py_bind_ok in H; destruct H as (x & Hx & H).

(** ** Region sizing *)


Lemma fold_discount_region (rs : list Region) (w h s : Z) :
  fold_left discount_region rs (w, h, s) =
  (w - visible_extent "UI" width rs - visible_extent "TOOLS" width rs,
   h - visible_extent "HEADER" height rs,
   tools_offset s rs).
Proof.
  revert w h s.
  induction rs as [|r rs IH]; intros w h s.
  - simpl. rewrite !Z.sub_0_r. reflexivity.
  - cbn [fold_left discount_region visible_extent fold_right tools_offset].
    fold (visible_extent "UI" width rs).
    fold (visible_extent "TOOLS" width rs).
    fold (visible_extent "HEADER" height rs).
    destruct ((rtype r =? "HEADER")%string && (1 <? height r));
      destruct ((rtype r =? "UI")%string && (1 <? width r));
      destruct ((rtype r =? "TOOLS")%string && (1 <? width r));
      rewrite IH; unfold tools_offset;
      repeat match goal with |- (_, _) = (_, _) => apply f_equal2 end;
      first [reflexivity | lia].
Qed.


(** C7. Region sizing.  Without overlap the usable size is the raw size of
    the region and the offset is zero.  With overlap the usable height is
    the raw height minus the heights of the header regions, the usable
    width is the raw width minus the widths of the UI panels and of the
    tools panels, and the offset is the width of the tools panel; regions
    of at most one pixel count for nothing.  In particular, for an area
    made of one header, one UI panel and one tools panel the result is
    (raw_w - ui - tools, raw_h - header, tools).  The step is a total
    function and does not clamp: results may be zero or negative. *)
Theorem region_size_spec (ctx : BpyContext) :
  region_size ctx =
    (if use_region_overlap ctx
     then (width (region ctx)
             - visible_extent "UI" width (area_regions ctx)
             - visible_extent "TOOLS" width (area_regions ctx),
           height (region ctx) - visible_extent "HEADER" height (area_regions ctx),
           tools_offset 0 (area_regions ctx))
     else (width (region ctx), height (region ctx), 0))
  /\ forall (win : Region) (folder : string) (hw hh uw uh tw th : Z),
       region_size {| region := win;
                      area_regions := [ {| rtype := "HEADER"; width := hw; height := hh |};
                                        {| rtype := "UI"; width := uw; height := uh |};
                                        {| rtype := "TOOLS"; width := tw; height := th |} ];
                      use_region_overlap := true;
                      edit_shots_folder := folder |}
       = (width win - visible uw - visible tw, height win - visible hh, visible tw).
Proof.
  split.
  - unfold region_size.
    destruct (use_region_overlap ctx); [apply fold_discount_region | reflexivity].
  - intros win folder hw hh uw uh tw th.
    unfold region_size, visible. cbn.
    destruct (1 <? hh), (1 <? uw), (1 <? tw);
      repeat match goal with |- (_, _) = (_, _) => apply f_equal2 end;
      first [reflexivity | lia].
Qed.

(** ** The early outs of the layout pass *)

Section EarlyOuts.

Context {F : Type} {PF : PyFloat F}.

Lemma length_zero_iff_nil (imgs : list (ThumbnailImage F)) :
  (Z.of_nat (List.length imgs) =? 0) = true <-> imgs = [].
Proof.
  destruct imgs as [|i imgs]; simpl; split; intros H;
    try reflexivity; discriminate H.
Qed.

Lemma fit_nonempty (ctx : BpyContext) (st : State F) :
  thumbnail_images st <> [] ->
  fit_thumbnails_in_region ctx st =
    (let num_images := Z.of_nat (List.length (thumbnail_images st)) in
     let '(total_available_w, total_available_h, start_w) := region_size ctx in
     py_bind (original_image_size (thumbnail_images st))
       (fun sz =>
          py_bind (layout total_available_w total_available_h start_w num_images
                     (fst sz) (snd sz))
            (fun l =>
               match l with
               | None => Ok (set_thumbnail_size (of_int 0, of_int 0) st)
               | Some L =>
                   Ok (set_thumbnail_images
                         (place_thumbnails L (thumbnail_images st)
                            (of_int (l_start_pos_x L)) (l_start_pos_y L))
                         (set_thumbnail_size (l_thumbnail_size L) st))
               end))).
Proof.
  intros Hne. unfold fit_thumbnails_in_region.
  destruct (Z.of_nat (List.length (thumbnail_images st)) =? 0) eqn:E.
  - apply length_zero_iff_nil in E. contradiction.
  - cbv zeta. destruct (region_size ctx) as [[tw th] sw].
    destruct (original_image_size (thumbnail_images st)) as [[w h]|e]; reflexivity.
Qed.

(** The early out of line 323, read on the inputs of [layout]. *)
Lemma layout_small_area (total_available_w total_available_h start_w n w h : Z)
    (ratio area : F) :
  truediv (of_int w) (of_int h) = Ok ratio ->
  truediv (of_int ((total_available_w - 150) * (total_available_h - 150))) (of_int n)
    = Ok area ->
  flt area (of_int 20) = true ->
  layout total_available_w total_available_h start_w n w h = Ok None.
Proof.
  intros Hr Ha Hlt. unfold layout. cbn [fst snd total_spacing].
  rewrite Hr. cbn [py_bind]. rewrite Ha. cbn [py_bind]. rewrite Hlt. reflexivity.
Qed.

End EarlyOuts.

(** C8. With no image the layout pass returns at once: the state is left
    as it was, so the list of positions is empty, and nothing is raised. *)
Theorem fit_no_images {F : Type} {PF : PyFloat F} (ctx : BpyContext) (st : State F) :
  thumbnail_images st = [] ->
  fit_thumbnails_in_region ctx st = Ok st
  /\ forall st', fit_thumbnails_in_region ctx st = Ok st' -> thumbnail_images st' = [].
Proof.
  intros Hnil.
  assert (Hfit : fit_thumbnails_in_region ctx st = Ok st).
  { unfold fit_thumbnails_in_region.
    apply length_zero_iff_nil in Hnil. rewrite Hnil. reflexivity. }
  split; [exact Hfit|].
  intros st' H. rewrite Hfit in H. injection H as <-. exact Hnil.
Qed.

(** C10. Frame of the two early outs.  With no image the whole state is
    unchanged, the thumbnail size included.  When the area per image is
    below 20 the size becomes (0, 0) and every image, with the position it
    had, is as before. *)
Theorem fit_early_out_frame {F : Type} {PF : PyFloat F} (ctx : BpyContext) (st : State F) :
  (thumbnail_images st = [] ->
   exists st', fit_thumbnails_in_region ctx st = Ok st'
               /\ thumbnail_images st' = thumbnail_images st
               /\ thumbnail_size st' = thumbnail_size st)
  /\ (forall (w h : Z) (ratio area : F),
        original_image_size (thumbnail_images st) = Ok (w, h) ->
        truediv (of_int w) (of_int h) = Ok ratio ->
        truediv (of_int ((fst (fst (region_size ctx)) - 150)
                         * (snd (fst (region_size ctx)) - 150)))
                (of_int (Z.of_nat (List.length (thumbnail_images st)))) = Ok area ->
        flt area (of_int 20) = true ->
        exists st', fit_thumbnails_in_region ctx st = Ok st'
                    /\ thumbnail_images st' = thumbnail_images st
                    /\ map (fun img => pos img) (thumbnail_images st')
                       = map (fun img => pos img) (thumbnail_images st)
                    /\ thumbnail_size st' = (of_int 0, of_int 0)).
Proof.
  split.
  - intros Hnil. exists st.
    unfold fit_thumbnails_in_region.
    apply length_zero_iff_nil in Hnil. rewrite Hnil. auto.
  - intros w h ratio area Hsz Hr Ha Hlt.
    exists (set_thumbnail_size (of_int 0, of_int 0) st).
    assert (Hne : thumbnail_images st <> []).
    { intros E. rewrite E in Hsz. discriminate Hsz. }
    rewrite (fit_nonempty ctx st Hne). cbv zeta.
    destruct (region_size ctx) as [[tw th] sw]. cbn [fst snd] in Ha.
    rewrite Hsz. cbn [py_bind fst snd].
    rewrite (layout_small_area tw th sw _ w h ratio area Hr Ha Hlt).
    cbn [py_bind]. repeat split; reflexivity.
Qed.

Lemma fit_no_images_witness :
  thumbnail_images (initial_state (F := PrimFloat.float) []) = []
  /\ fit_thumbnails_in_region (window 1000 600) (initial_state (F := PrimFloat.float) [])
     = Ok (initial_state []).
Proof.
  split; [reflexivity|].
  apply (fit_no_images (window 1000 600) (initial_state [])). reflexivity.
Defined.

Lemma fit_early_out_frame_witness :
  exists st',
    fit_thumbnails_in_region (window 160 160)
      (initial_state (F := PrimFloat.float) [thumbnail 1 1 1; thumbnail 1 1 2; thumbnail 1 1 3;
                                             thumbnail 1 1 4; thumbnail 1 1 5; thumbnail 1 1 6])
    = Ok st'
    /\ thumbnail_size st' = (of_int 0, of_int 0).
Proof.
  destruct (fit_early_out_frame (window 160 160)
              (initial_state (F := PrimFloat.float)
                 [thumbnail 1 1 1; thumbnail 1 1 2; thumbnail 1 1 3;
                  thumbnail 1 1 4; thumbnail 1 1 5; thumbnail 1 1 6])) as [_ H].
  destruct (H 1 1 (of_int 1) (PrimFloat.div (of_int 100) (of_int 6))) as (st' & Hfit & _ & _ & Hsz);
    try (vm_compute; reflexivity).
  exists st'. split; assumption.
Defined.

(** ** The image provider *)

(** C9. When the thumbnail folder does not exist, and the list of images
    is empty as it is at both call sites, [load_edit_thumbnails] returns
    normally: it logs the warning, the list stays empty, and the layout
    pass that follows leaves the state as it is.  The draw handler, which
    runs both, returns normally as well. *)
Theorem load_missing_folder {F : Type} {PF : PyFloat F}
    (ctx : BpyContext) (w : World) (st : State F) :
  listdir w (edit_shots_folder ctx) = Raise FileNotFoundError ->
  thumbnail_images st = [] ->
  exists st',
    load_edit_thumbnails ctx w st = Ok st'
    /\ thumbnail_images st' = []
    /\ log_records st'
       = log_records st ++ [LogWarning (edit_shots_folder ctx)] ++ [LogInfo 0]
    /\ thumbnail_size st' = thumbnail_size st
    /\ fit_thumbnails_in_region ctx st' = Ok st'
    /\ exists st'', draw_edit_thumbnails ctx w st = Ok st''
                    /\ thumbnail_images st'' = [].
Proof.
  intros Hdir Hnil.
  assert (Hload : load_edit_thumbnails ctx w st
                  = Ok (add_log (LogInfo 0)
                          (set_thumbnail_images []
                             (add_log (LogWarning (edit_shots_folder ctx)) st)))).
  { unfold load_edit_thumbnails. rewrite Hdir. cbn. rewrite Hnil. reflexivity. }
  eexists. split; [exact Hload|].
  split; [reflexivity|].
  split; [cbn; rewrite <- app_assoc; reflexivity|].
  split; [reflexivity|].
  split; [reflexivity|].
  unfold draw_edit_thumbnails. rewrite Hnil, Hload. cbn [py_bind].
  match goal with
  | |- context [fit_thumbnails_in_region ctx ?s] =>
      change (fit_thumbnails_in_region ctx s) with (Ok (A := State F) s)
  end.
  cbn [py_bind].
  match goal with |- context [if ?b then _ else _] => destruct b end;
    eexists; split; reflexivity.
Qed.

Lemma load_missing_folder_witness :
  listdir no_folder (edit_shots_folder (window 1000 600)) = Raise FileNotFoundError
  /\ exists st',
       load_edit_thumbnails (window 1000 600) no_folder
         (initial_state (F := PrimFloat.float) []) = Ok st'
       /\ thumbnail_images st' = [].
Proof.
  split; [reflexivity|].
  destruct (load_missing_folder (window 1000 600) no_folder
              (initial_state (F := PrimFloat.float) []))
    as (st' & Hload & Himgs & _); try reflexivity.
  exists st'. split; assumption.
Defined.

(** ** Placing the thumbnails *)

Section Placement.

Context {F : Type} {PF : PyFloat F}.

(** The loop visits every image once, in list order, and only writes
    positions. *)
Lemma place_thumbnails_length (L : Layout F) (imgs : list (ThumbnailImage F)) (x y : F) :
  List.length (place_thumbnails L imgs x y) = List.length imgs.
Proof.
  revert x y. induction imgs as [|img rest IH]; intros x y; [reflexivity|].
  cbn [place_thumbnails].
  match goal with |- context [if ?b then _ else _] => destruct b end;
    cbn [List.length]; rewrite IH; reflexivity.
Qed.

Lemma place_thumbnails_same_images (L : Layout F) (imgs : list (ThumbnailImage F)) (x y : F) :
  map (fun img => (id_image img, name img)) (place_thumbnails L imgs x y)
  = map (fun img => (id_image img, name img)) imgs.
Proof.
  revert x y. induction imgs as [|img rest IH]; intros x y; [reflexivity|].
  cbn [place_thumbnails].
  match goal with |- context [if ?b then _ else _] => destruct b end;
    cbn [map set_pos id_image name]; rewrite IH; reflexivity.
Qed.

(** The first image gets the start position. *)
Lemma place_thumbnails_head (L : Layout F) (img : ThumbnailImage F)
    (rest : list (ThumbnailImage F)) (x y : F) :
  exists tl, place_thumbnails L (img :: rest) x y = set_pos img (x, y) :: tl.
Proof.
  cbn [place_thumbnails].
  match goal with |- context [if ?b then _ else _] => destruct b end;
    eexists; reflexivity.
Qed.

End Placement.

(** ** Runs of the layout on doubles, by evaluation *)


(** One 1x1 image in a 550x550 region: one column, thumbnail 400 wide. *)
Lemma float_layout_550_550_one_image :
  layout (F := PrimFloat.float) 550 550 0 1 1 1
  = Ok (Some {| l_area_scale_factor := of_int 400;
                l_num_images_per_row := 1;
                l_num_images_per_col := 1;
                l_scale_factor := of_int 400;
                l_thumbnail_size := (of_int 400, of_int 400);
                l_margins := (75, 75);
                l_spacing := (0, 0);
                l_start_pos_x := 75;
                l_start_pos_y := of_int 75;
                l_last_start_pos_x := 75 |}).
Proof. vm_compute. reflexivity. Qed.

(** The same image in a region 41 pixels wider: two columns, and the
    width test brings the thumbnail down to 275.5. *)
Lemma float_layout_591_550_one_image :
  layout (F := PrimFloat.float) 591 550 0 1 1 1
  = Ok (Some {| l_area_scale_factor := of_int 420;
                l_num_images_per_row := 2;
                l_num_images_per_col := 1;
                l_scale_factor := PrimFloat.div (of_int 551) (of_int 2);
                l_thumbnail_size := (PrimFloat.div (of_int 551) (of_int 2),
                                     PrimFloat.div (of_int 551) (of_int 2));
                l_margins := (20, 137);
                l_spacing := (0, 0);
                l_start_pos_x := 20;
                l_start_pos_y := PrimFloat.div (of_int 275) (of_int 2);
                l_last_start_pos_x := 296 |}).
Proof. vm_compute. reflexivity. Qed.

(** A hundred 1x1 images in a 750x156 region: one row, spacing 2, left
    margin -24. *)
Lemma float_layout_750_156_hundred_images :
  layout (F := PrimFloat.float) 750 156 0 100 1 1
  = Ok (Some {| l_area_scale_factor := of_int 6;
                l_num_images_per_row := 100;
                l_num_images_per_col := 1;
                l_scale_factor := of_int 6;
                l_thumbnail_size := (of_int 6, of_int 6);
                l_margins := (-24, 75);
                l_spacing := (2, 0);
                l_start_pos_x := -24;
                l_start_pos_y := of_int 75;
                l_last_start_pos_x := 768 |}).
Proof. vm_compute. reflexivity. Qed.

(** With a usable width of -174 and a usable height of 50 the width test
    of line 340 raises the scale, from 180 to 214. *)
Lemma float_layout_negative_width_scale :
  layout (F := PrimFloat.float) (-174) 50 0 1 1 1
  = Ok (Some {| l_area_scale_factor := of_int 180;
                l_num_images_per_row := -1;
                l_num_images_per_col := -1;
                l_scale_factor := of_int 214;
                l_thumbnail_size := (of_int 214, of_int 214);
                l_margins := (20, 132);
                l_spacing := (0, 0);
                l_start_pos_x := 20;
                l_start_pos_y := of_int (-296);
                l_last_start_pos_x := -408 |}).
Proof. vm_compute. reflexivity. Qed.

(** Regions of at most 150 pixels: both available sides are negative, the
    area test passes, the number of images per row is 0 and the division of
    line 332 raises. *)
Lemma float_layout_149_50_raises :
  layout (F := PrimFloat.float) 149 50 0 1 1 1 = Raise ZeroDivisionError.
Proof. vm_compute. reflexivity. Qed.

Lemma float_layout_140_100_raises :
  layout (F := PrimFloat.float) 140 100 0 1 1920 1080 = Raise ZeroDivisionError.
Proof. vm_compute. reflexivity. Qed.

(** ** Spacing and margins *)

Section Spacing.

Context {F : Type} {PF : PyFloat F}.

(** The formula of one axis, each operation being the program's. *)
Lemma calculate_spacing_inv (total_available : Z) (thumb_size : F) (count : Z)
    (margin spacing : Z) :
  calculate_spacing total_available thumb_size count = Ok (margin, spacing) ->
  let left := leftover total_available thumb_size count in
  (if 1 <? count
   then exists (q : F) (c : Z),
          truediv (fsub left (of_int min_margin)) (of_int (count - 1)) = Ok q
          /\ fceil q = Ok c
          /\ spacing = Z.min c min_margin
   else spacing = 0)
  /\ exists q : F,
       truediv (fsub left (of_int (spacing * (count - 1)))) (of_int 2) = Ok q
       /\ ffloor q = Ok margin.
Proof.
  unfold calculate_spacing. fold (leftover total_available thumb_size count).
  intros H. cbv zeta. bind_inv H s Hs. bind_inv H q Hq. bind_inv H m Hm.
  injection H as <- <-.
  split; [|exists q; split; assumption].
  destruct (1 <? count).
  - bind_inv Hs q1 Hq1. bind_inv Hs c Hc. injection Hs as <-.
    exists q1, c. repeat split; assumption.
  - injection Hs as <-. reflexivity.
Qed.

Lemma calculate_spacing_run (total_available : Z) (thumb_size : F) (count : Z)
    (margin spacing : Z) :
  let left := leftover total_available thumb_size count in
  (if 1 <? count
   then exists (q : F) (c : Z),
          truediv (fsub left (of_int min_margin)) (of_int (count - 1)) = Ok q
          /\ fceil q = Ok c
          /\ spacing = Z.min c min_margin
   else spacing = 0) ->
  (exists q : F,
      truediv (fsub left (of_int (spacing * (count - 1)))) (of_int 2) = Ok q
      /\ ffloor q = Ok margin) ->
  calculate_spacing total_available thumb_size count = Ok (margin, spacing).
Proof.
  cbv zeta. intros Hs (q & Hq & Hm).
  unfold calculate_spacing. fold (leftover total_available thumb_size count).
  destruct (1 <? count).
  - destruct Hs as (q1 & c & Hq1 & Hc & ->).
    rewrite Hq1. cbn [py_bind]. rewrite Hc. cbn [py_bind].
    rewrite Hq. cbn [py_bind]. rewrite Hm. reflexivity.
  - rewrite Hs in *. cbn [py_bind]. rewrite Hq. cbn [py_bind]. rewrite Hm. reflexivity.
Qed.

(** C3. For one axis, with leftover = total_available - thumb_size * count
    and every operation the program's own: [calculate_spacing] returns
    (margin, spacing) exactly when spacing is
    min(ceil((leftover - min_margin) / (count - 1)), min_margin) for
    count > 1 and 0 otherwise, and margin is
    floor((leftover - spacing * (count - 1)) / 2).  min_margin is
    subtracted once, as written, and the spacing returned never exceeds
    min_margin. *)
Theorem calculate_spacing_spec (total_available : Z) (thumb_size : F) (count : Z)
    (margin spacing : Z) :
  let left := leftover total_available thumb_size count in
  (calculate_spacing total_available thumb_size count = Ok (margin, spacing)
   <-> ((if 1 <? count
         then exists (q : F) (c : Z),
                truediv (fsub left (of_int min_margin)) (of_int (count - 1)) = Ok q
                /\ fceil q = Ok c
                /\ spacing = Z.min c min_margin
         else spacing = 0)
        /\ exists q : F,
             truediv (fsub left (of_int (spacing * (count - 1)))) (of_int 2) = Ok q
             /\ ffloor q = Ok margin))
  /\ (calculate_spacing total_available thumb_size count = Ok (margin, spacing) ->
      spacing <= min_margin).
Proof.
  cbv zeta. split.
  - split.
    + apply calculate_spacing_inv.
    + intros [Hs Hm]. apply calculate_spacing_run; assumption.
  - intros H. apply calculate_spacing_inv in H. cbv zeta in H. destruct H as [Hs _].
    destruct (1 <? count).
    + destruct Hs as (q & c & _ & _ & ->). apply Z.le_min_r.
    + rewrite Hs. unfold min_margin. lia.
Qed.

End Spacing.

(** On doubles, three thumbnails of 337/3 pixels on an axis of 377: the
    leftover rounds to exactly 40, the spacing is 0 and the margin 20. *)
Lemma float_calculate_spacing_377 :
  calculate_spacing (F := PrimFloat.float) 377 (PrimFloat.div (of_int 337) (of_int 3)) 3
  = Ok (20, 0).
Proof. vm_compute. reflexivity. Qed.

(** ** A single image *)

Section Grid.

Context {F : Type} {PF : PyFloat F}.



End Grid.







(** ** The pass at its limits *)

(** C1.  Where the pass leaves the region.  A hundred 1x1 images in a
    750x156 region, offset 0: one row of thumbnails 6 pixels wide, spacing
    2, left margin -24, the first image at x = -24.  Twelve 16x9 images in
    488x300, a grid of four by three: the sum of line 384 passes
    [last_start_pos_x] after three images, the image of index 3 opens the
    second row, and the image of index 11 is at y = -51, below the region
    by more than the thumbnail height of 48.75.  One 1920x1080 image in
    140x100: the division of line 332 raises. *)
Theorem fit_leaves_region :
  (exists (L : Layout PrimFloat.float) (st' : State PrimFloat.float),
      layout 750 156 0 100 1 1 = Ok (Some L)
      /\ l_spacing L = (2, 0)
      /\ l_margins L = (-24, 75)
      /\ fit_thumbnails_in_region (window 750 156)
           (initial_state (repeat (thumbnail 1 1 0) 100)) = Ok st'
      /\ thumbnail_size st' = (of_int 6, of_int 6)
      /\ position_of st' 0 = Some (of_int (-24), of_int 75))
  /\ (exists (L : Layout PrimFloat.float) (st' : State PrimFloat.float),
         layout 488 300 0 12 16 9 = Ok (Some L)
         /\ (l_num_images_per_row L, l_num_images_per_col L) = (4, 3)
         /\ fit_thumbnails_in_region (window 488 300)
              (initial_state (repeat (thumbnail 16 9 0) 12)) = Ok st'
         /\ snd (thumbnail_size st') = PrimFloat.div (of_int 195) (of_int 4)
         /\ position_of st' 3 = Some (of_int 19, PrimFloat.div (of_int 253) (of_int 2))
         /\ option_map snd (position_of st' 11) = Some (of_int (-51)))
  /\ fit_thumbnails_in_region (window 140 100)
       (initial_state (F := PrimFloat.float) [thumbnail 1920 1080 0])
     = Raise ZeroDivisionError.
Proof.
  split; [|split].
  - eexists. eexists. split; [exact float_layout_750_156_hundred_images|].
    split; [reflexivity|]. split; [reflexivity|].
    split; [vm_compute; reflexivity|]. split; vm_compute; reflexivity.
  - eexists. eexists. split; [vm_compute; reflexivity|].
    split; [reflexivity|].
    split; [vm_compute; reflexivity|]. repeat split; vm_compute; reflexivity.
  - vm_compute. reflexivity.
Qed.

(** C2.  Where the clamp enlarges.  An editor 126 pixels wide under an
    overlapping panel 300 pixels wide has a usable size of -174 by 50; with
    one 1x1 image the area-based scale is 180 and the scale after lines
    340-343 is 214.  Twenty 16x9 images in 1840x600: seven columns, and
    seven thumbnail widths exceed the 1800 pixels of [max_thumb_size]. *)
Theorem clamp_raises_scale :
  region_size narrow_editor = (-174, 50, 0)
  /\ (exists L : Layout PrimFloat.float,
         layout (-174) 50 0 1 1 1 = Ok (Some L)
         /\ l_area_scale_factor L = of_int 180
         /\ l_scale_factor L = of_int 214)
  /\ (exists st' : State PrimFloat.float,
         fit_thumbnails_in_region narrow_editor (initial_state [thumbnail 1 1 0]) = Ok st'
         /\ thumbnail_size st' = (of_int 214, of_int 214))
  /\ (exists L : Layout PrimFloat.float,
         layout 1840 600 0 20 16 9 = Ok (Some L)
         /\ l_num_images_per_row L = 7
         /\ flt (of_int (1840 - min_margin))
                (fmul (fst (l_thumbnail_size L)) (of_int 7)) = true).
Proof.
  split; [reflexivity|]. split; [|split].
  - eexists. split; [exact float_layout_negative_width_scale|]. split; reflexivity.
  - eexists. split; vm_compute; reflexivity.
  - eexists. split; [vm_compute; reflexivity|]. split; vm_compute; reflexivity.
Qed.

(** C6.  Where a wider region gives a narrower thumbnail, on one row.  One
    1920x1080 image, usable height 618: a usable width of 981 gives one
    column and a thumbnail more than 831 pixels wide, a usable width of 982
    gives two columns and a thumbnail 471 pixels wide.  One 1x1 image,
    usable height 550: 400 pixels at a usable width of 550, 275.5 at 591. *)
Theorem wider_region_smaller_thumbnail :
  (exists L L' : Layout PrimFloat.float,
      layout 981 618 0 1 1920 1080 = Ok (Some L)
      /\ layout 982 618 0 1 1920 1080 = Ok (Some L')
      /\ (l_num_images_per_row L, l_num_images_per_col L) = (1, 1)
      /\ (l_num_images_per_row L', l_num_images_per_col L') = (2, 1)
      /\ flt (of_int 831) (fst (l_thumbnail_size L)) = true
      /\ fst (l_thumbnail_size L') = of_int 471)
  /\ (exists L L' : Layout PrimFloat.float,
         layout 550 550 0 1 1 1 = Ok (Some L)
         /\ layout 591 550 0 1 1 1 = Ok (Some L')
         /\ (l_num_images_per_row L, l_num_images_per_col L) = (1, 1)
         /\ (l_num_images_per_row L', l_num_images_per_col L') = (2, 1)
         /\ fst (l_thumbnail_size L) = of_int 400
         /\ fst (l_thumbnail_size L') = PrimFloat.div (of_int 551) (of_int 2)).
Proof.
  split.
  - eexists. eexists. split; [vm_compute; reflexivity|]. split; [vm_compute; reflexivity|].
    repeat split; vm_compute; reflexivity.
  - eexists. eexists. split; [exact float_layout_550_550_one_image|].
    split; [exact float_layout_591_550_one_image|].
    repeat split; reflexivity.
Qed.

(** ** The visibility threshold *)

(** The test of line 323 divides one integer by another and compares the
    quotient with 20: it is read here without rounding. *)

Local Open Scope R_scope.

Lemma Rtruediv_ok (x y : R) : y <> 0 -> Rtruediv x y = Ok (x / y).
Proof.
  intros Hy. unfold Rtruediv. destruct (Req_dec_T y 0) as [E|_]; [contradiction | reflexivity].
Qed.

Lemma Rtruediv_inv (x y q : R) : Rtruediv x y = Ok q -> y <> 0 /\ q = x / y.
Proof.
  unfold Rtruediv. destruct (Req_dec_T y 0) as [E|N]; intros H.
  - discriminate H.
  - injection H as <-. split; [exact N | reflexivity].
Qed.

Lemma Rltb_true (x y : R) : Rltb x y = true <-> x < y.
Proof.
  unfold Rltb. destruct (Rlt_dec x y); split; intros H;
    first [assumption | reflexivity | discriminate H | contradiction].
Qed.

Lemma Rleb_true (x y : R) : Rleb x y = true <-> x <= y.
Proof.
  unfold Rleb. destruct (Rle_dec x y); split; intros H;
    first [assumption | reflexivity | discriminate H | contradiction].
Qed.

Lemma IZR_nonzero (z : Z) : z <> 0%Z -> IZR z <> 0.
Proof. intros Hz E. apply Hz. apply eq_IZR. exact E. Qed.

(** Evaluate the integer under every [IZR]. *)
Ltac IZR_compute :=
  repeat match goal with
         | |- context [IZR ?z] =>
             lazymatch z with
             | Z0 => fail
             | Zpos _ => fail
             | Zneg _ => fail
             | _ => let z' := eval vm_compute in z in change (IZR z) with (IZR z')
             end
         end.

(** The early out of line 323 is the only way to return no layout. *)
Lemma layout_none_inv (total_w total_h start_w n w h : Z) :
  layout (F := R) total_w total_h start_w n w h = Ok None ->
  IZR ((total_w - 150) * (total_h - 150)) / IZR n < 20.
Proof.
  unfold layout. cbn [fst snd total_spacing].
  cbn [of_int truediv flt RealArith].
  intros H. bind_inv H ratio Hratio. bind_inv H area Harea.
  apply Rtruediv_inv in Harea. destruct Harea as [_ ->].
  destruct (Rltb _ (IZR 20)) eqn:E.
  - apply Rltb_true in E. exact E.
  - exfalso. bind_inv H s0 Hs0. bind_inv H cr Hcr. destruct cr as [cols rows].
    bind_inv H s Hs. bind_inv H sw Hsw. bind_inv H sh Hsh. bind_inv H c Hc.
    discriminate H.
Qed.

(** C5. When the area available per image, (available_w * available_h) /
    image_count, is below 20, the pass sets the thumbnail size to (0, 0) and
    returns, changing nothing else; the draw handler then returns without
    a call to the renderer.  The first image must have a non-zero height,
    the aspect ratio being computed before the test. *)
Theorem fit_small_area_degenerate (ctx : BpyContext) (wd : World) (st : State R)
    (w h : Z) :
  original_image_size (thumbnail_images st) = Ok (w, h) ->
  h <> 0%Z ->
  IZR ((fst (fst (region_size ctx)) - fst total_spacing)
       * (snd (fst (region_size ctx)) - snd total_spacing))
    / IZR (Z.of_nat (List.length (thumbnail_images st))) < 20 ->
  fit_thumbnails_in_region ctx st = Ok (set_thumbnail_size (0, 0) st)
  /\ draw_edit_thumbnails ctx wd st = Ok (set_thumbnail_size (0, 0) st).
Proof.
  intros Hsz Hh Harea.
  assert (Hne : thumbnail_images st <> []).
  { intros E. rewrite E in Hsz. discriminate Hsz. }
  assert (Hn : IZR (Z.of_nat (List.length (thumbnail_images st))) <> 0).
  { apply IZR_nonzero. destruct (thumbnail_images st); [contradiction|].
    cbn [List.length]. lia. }
  assert (Hfit : fit_thumbnails_in_region ctx st = Ok (set_thumbnail_size (0, 0) st)).
  { rewrite (fit_nonempty ctx st Hne). cbv zeta.
    destruct (region_size ctx) as [[tw th] sw]. cbn [fst snd total_spacing] in Harea.
    rewrite Hsz. cbn [py_bind fst snd].
    rewrite (layout_small_area tw th sw _ w h (IZR w / IZR h)
               (IZR ((tw - 150) * (th - 150))
                / IZR (Z.of_nat (List.length (thumbnail_images st))))).
    - reflexivity.
    - apply Rtruediv_ok. apply IZR_nonzero. exact Hh.
    - apply Rtruediv_ok. exact Hn.
    - apply Rltb_true. exact Harea. }
  split; [exact Hfit|].
  unfold draw_edit_thumbnails.
  destruct (thumbnail_images st) as [|img rest] eqn:E; [contradiction|].
  cbn [py_bind]. rewrite Hfit. cbn [py_bind thumbnail_size set_thumbnail_size fst snd].
  cbn [fle of_int RealArith].
  replace (Rleb 0 (IZR 5)) with true; [reflexivity|].
  symmetry. apply Rleb_true. lra.
Qed.

Lemma fit_small_area_degenerate_witness :
  fit_thumbnails_in_region (window 160 160)
    (initial_state (F := R) (repeat (thumbnail 4 3 0) 6))
  = Ok (set_thumbnail_size (0, 0) (initial_state (repeat (thumbnail 4 3 0) 6))).
Proof.
  apply (fit_small_area_degenerate (window 160 160) no_folder
           (initial_state (repeat (thumbnail 4 3 0) 6)) 4 3 eq_refl ltac:(lia)).
  cbn. lra.
Defined.

(** The scenario of the specification, a 50x50 region and a hundred
    images, is not below the threshold: both available sides are -100, the
    area per image is 100, and a layout is computed whatever the image. *)
Lemma layout_50_50_hundred_images (w h : Z) :
  layout (F := R) 50 50 0 100 w h <> Ok None.
Proof.
  intros H. apply layout_none_inv in H. revert H. IZR_compute. lra.
Qed.

Lemma float_layout_50_50_hundred_images :
  layout (F := PrimFloat.float) 50 50 0 100 1 1
  = Ok (Some {| l_area_scale_factor := of_int 10;
                l_num_images_per_row := (-10)%Z;
                l_num_images_per_col := (-10)%Z;
                l_scale_factor := of_int 10;
                l_thumbnail_size := (of_int 10, of_int 10);
                l_margins := (75, 75)%Z;
                l_spacing := (0, 0)%Z;
                l_start_pos_x := 75%Z;
                l_start_pos_y := of_int (-35);
                l_last_start_pos_x := (-35)%Z |}).
Proof. vm_compute. reflexivity. Qed.

(** * Further properties: the layout pass, the loader, the draw handler, the sync operator *)

Section PassFrame.

Context {F : Type} {PF : PyFloat F}.

Lemma place_thumbnails_original_size (L : Layout F) (imgs : list (ThumbnailImage F))
    (x y : F) :
  original_image_size (place_thumbnails L imgs x y) = original_image_size imgs.
Proof.
  destruct imgs as [|img rest]; [reflexivity|].
  destruct (place_thumbnails_head L img rest x y) as (tl & ->). reflexivity.
Qed.

(** Placing again from the same start gives the same positions: the loop
    reads nothing of what it overwrites. *)
Lemma place_thumbnails_again (L : Layout F) (imgs : list (ThumbnailImage F))
    (x y x' y' : F) :
  place_thumbnails L (place_thumbnails L imgs x' y') x y = place_thumbnails L imgs x y.
Proof.
  revert x y x' y'. induction imgs as [|img rest IH]; intros x y x' y'; [reflexivity|].
  cbn [place_thumbnails].
  destruct (flt (of_int (l_last_start_pos_x L))
              (fadd x' (fadd (fst (l_thumbnail_size L)) (of_int (fst (l_spacing L))))));
    cbn [place_thumbnails];
    destruct (flt (of_int (l_last_start_pos_x L))
                (fadd x (fadd (fst (l_thumbnail_size L)) (of_int (fst (l_spacing L))))));
    rewrite IH; reflexivity.
Qed.

Lemma fit_nonempty_result (ctx : BpyContext) (st st' : State F) :
  thumbnail_images st <> [] ->
  fit_thumbnails_in_region ctx st = Ok st' ->
  exists w h l,
    original_image_size (thumbnail_images st) = Ok (w, h)
    /\ layout (fst (fst (region_size ctx))) (snd (fst (region_size ctx)))
              (snd (region_size ctx)) (Z.of_nat (List.length (thumbnail_images st))) w h
       = Ok l
    /\ st' = match l with
             | None => set_thumbnail_size (of_int 0, of_int 0) st
             | Some L =>
                 set_thumbnail_images
                   (place_thumbnails L (thumbnail_images st)
                      (of_int (l_start_pos_x L)) (l_start_pos_y L))
                   (set_thumbnail_size (l_thumbnail_size L) st)
             end.
Proof.
  intros Hne Hfit. rewrite (fit_nonempty ctx st Hne) in Hfit. cbv zeta in Hfit.
  destruct (region_size ctx) as [[tw th] sw]. cbn [fst snd].
  bind_inv Hfit sz Hsz. destruct sz as [w h]. cbn [fst snd] in Hfit.
  bind_inv Hfit l Hl.
  exists w, h, l. split; [exact Hsz|]. split; [exact Hl|].
  destruct l; injection Hfit as <-; reflexivity.
Qed.

Lemma fit_on_empty (ctx : BpyContext) (st : State F) :
  thumbnail_images st = [] -> fit_thumbnails_in_region ctx st = Ok st.
Proof.
  intros Hnil. unfold fit_thumbnails_in_region.
  apply length_zero_iff_nil in Hnil. rewrite Hnil. reflexivity.
Qed.

Lemma fit_result_frame (ctx : BpyContext) (st st' : State F) :
  fit_thumbnails_in_region ctx st = Ok st' ->
  map (fun img => (id_image img, name img)) (thumbnail_images st')
  = map (fun img => (id_image img, name img)) (thumbnail_images st)
  /\ List.length (thumbnail_images st') = List.length (thumbnail_images st)
  /\ log_records st' = log_records st
  /\ draw_calls st' = draw_calls st.
Proof.
  intros Hfit.
  destruct (thumbnail_images st) as [|img rest] eqn:E.
  - rewrite (fit_on_empty ctx st E) in Hfit.
    injection Hfit as <-. rewrite E. repeat split; reflexivity.
  - assert (Hne : thumbnail_images st <> []) by (rewrite E; discriminate).
    destruct (fit_nonempty_result ctx st st' Hne Hfit) as (w & h & l & _ & _ & ->).
    rewrite <- E. destruct l as [L|]; cbn [thumbnail_images set_thumbnail_images
      set_thumbnail_size log_records draw_calls].
    + rewrite place_thumbnails_same_images, place_thumbnails_length.
      repeat split; reflexivity.
    + repeat split; reflexivity.
Qed.

(** X1. The layout pass only writes positions and the thumbnail size:
    every image keeps its picture and its number, in the same order, and the
    log and the render calls are untouched. *)
Theorem fit_writes_positions_only (ctx : BpyContext) (st st' : State F) :
  fit_thumbnails_in_region ctx st = Ok st' ->
  map (fun img => (id_image img, name img)) (thumbnail_images st')
  = map (fun img => (id_image img, name img)) (thumbnail_images st)
  /\ List.length (thumbnail_images st') = List.length (thumbnail_images st)
  /\ log_records st' = log_records st
  /\ draw_calls st' = draw_calls st.
Proof. apply fit_result_frame. Qed.

(** X2. Running the layout pass on its own result changes nothing. *)
Theorem fit_idempotent (ctx : BpyContext) (st st' : State F) :
  fit_thumbnails_in_region ctx st = Ok st' ->
  fit_thumbnails_in_region ctx st' = Ok st'.
Proof.
  intros Hfit.
  destruct (thumbnail_images st) as [|img rest] eqn:E.
  - pose proof (fit_on_empty ctx st E) as H0. rewrite H0 in Hfit.
    injection Hfit as <-. exact H0.
  - assert (Hne : thumbnail_images st <> []) by (rewrite E; discriminate).
    destruct (fit_nonempty_result ctx st st' Hne Hfit) as (w & h & l & Hsz & Hl & Est).
    assert (Hlen : List.length (thumbnail_images st') = List.length (thumbnail_images st))
      by (apply (fit_result_frame ctx st st' Hfit)).
    assert (Hne' : thumbnail_images st' <> []).
    { intros E'. rewrite E', E in Hlen. discriminate Hlen. }
    rewrite (fit_nonempty ctx st' Hne'). cbv zeta. rewrite Hlen.
    destruct (region_size ctx) as [[tw th] sw]. cbn [fst snd] in Hl.
    assert (Hsz' : original_image_size (thumbnail_images st') = Ok (w, h)).
    { rewrite Est. destruct l as [L|];
        cbn [thumbnail_images set_thumbnail_images set_thumbnail_size];
        [rewrite place_thumbnails_original_size|]; exact Hsz. }
    rewrite Hsz'. cbn [py_bind fst snd]. rewrite Hl. cbn [py_bind].
    rewrite Est. destruct l as [L|];
      cbn [thumbnail_images set_thumbnail_images set_thumbnail_size
           thumbnail_size log_records draw_calls].
    + rewrite place_thumbnails_again. reflexivity.
    + reflexivity.
Qed.

End PassFrame.

(** ** The draw handler *)

Section DrawHandler.

Context {F : Type} {PF : PyFloat F}.

Lemma draw_nonempty (ctx : BpyContext) (w : World) (st : State F) :
  thumbnail_images st <> [] ->
  draw_edit_thumbnails ctx w st
  = py_bind (fit_thumbnails_in_region ctx st)
      (fun st1 =>
         if fle (fst (thumbnail_size st1)) (of_int 5)
            || fle (snd (thumbnail_size st1)) (of_int 5)
         then Ok st1 else Ok (add_draw_call st1)).
Proof.
  intros Hne. unfold draw_edit_thumbnails.
  destruct (thumbnail_images st); [contradiction | reflexivity].
Qed.

(** X3. With images already loaded the draw handler does not touch the
    file system: it lays the images out and makes at most one render call,
    exactly when both sides of the thumbnail exceed 5 pixels, passing the
    images and the size it has just computed. *)
Theorem draw_renders_when_large (ctx : BpyContext) (w : World) (st st' : State F) :
  thumbnail_images st <> [] ->
  draw_edit_thumbnails ctx w st = Ok st' ->
  exists st1,
    fit_thumbnails_in_region ctx st = Ok st1
    /\ thumbnail_images st' = thumbnail_images st1
    /\ thumbnail_size st' = thumbnail_size st1
    /\ log_records st' = log_records st
    /\ (forall w', draw_edit_thumbnails ctx w' st = Ok st')
    /\ ((fle (fst (thumbnail_size st1)) (of_int 5) = false
         /\ fle (snd (thumbnail_size st1)) (of_int 5) = false
         /\ draw_calls st' = draw_calls st ++ [(thumbnail_images st1, thumbnail_size st1)])
        \/ ((fle (fst (thumbnail_size st1)) (of_int 5) = true
             \/ fle (snd (thumbnail_size st1)) (of_int 5) = true)
            /\ draw_calls st' = draw_calls st)).
Proof.
  intros Hne Hdraw.
  pose proof (draw_nonempty ctx w st Hne) as E. rewrite E in Hdraw.
  bind_inv Hdraw st1 Hfit. exists st1.
  destruct (fit_result_frame ctx st st1 Hfit) as (_ & _ & Hlog & Hdc).
  split; [exact Hfit|].
  assert (Hany : forall st2,
            (if fle (fst (thumbnail_size st1)) (of_int 5)
                || fle (snd (thumbnail_size st1)) (of_int 5)
             then Ok st1 else Ok (add_draw_call st1)) = Ok st2 ->
            forall w', draw_edit_thumbnails ctx w' st = Ok st2).
  { intros st2 H2 w'. rewrite (draw_nonempty ctx w' st Hne), Hfit. exact H2. }
  specialize (Hany st' Hdraw).
  destruct (fle (fst (thumbnail_size st1)) (of_int 5)) eqn:Ew;
    destruct (fle (snd (thumbnail_size st1)) (of_int 5)) eqn:Eh;
    cbn [orb] in Hdraw; injection Hdraw as <-;
    cbn [thumbnail_images thumbnail_size log_records draw_calls add_draw_call];
    rewrite ?Hdc;
    (split; [reflexivity|]); (split; [reflexivity|]); (split; [exact Hlog|]);
    (split; [exact Hany|]);
    first [left; repeat split; reflexivity | right; split; [auto | reflexivity]].
Qed.

End DrawHandler.

(** ** The image loader *)

Section Loader.

Context {F : Type} {PF : PyFloat F}.

Lemma insert_by_name_perm (img : ThumbnailImage F) (l : list (ThumbnailImage F)) :
  Permutation (insert_by_name img l) (img :: l).
Proof.
  induction l as [|x rest IH]; cbn [insert_by_name]; [apply Permutation_refl|].
  destruct (name img <=? name x)%Z; [apply Permutation_refl|].
  apply Permutation_trans with (x :: img :: rest).
  - apply perm_skip. exact IH.
  - apply perm_swap.
Qed.

Lemma sort_by_name_perm (l : list (ThumbnailImage F)) :
  Permutation (sort_by_name l) l.
Proof.
  induction l as [|x rest IH]; [apply Permutation_refl|].
  cbn [sort_by_name fold_right]. fold (sort_by_name rest).
  apply Permutation_trans with (x :: sort_by_name rest).
  - apply insert_by_name_perm.
  - apply perm_skip. exact IH.
Qed.

Lemma insert_by_name_sorted (img : ThumbnailImage F) (l : list (ThumbnailImage F)) :
  Sorted by_name l -> Sorted by_name (insert_by_name img l).
Proof.
  induction l as [|x rest IH]; intros Hs; cbn [insert_by_name].
  - repeat constructor.
  - destruct (name img <=? name x)%Z eqn:E.
    + apply Z.leb_le in E. constructor; [exact Hs|]. constructor. exact E.
    + apply Z.leb_gt in E. inversion Hs as [|? ? Hrest Hhd]; subst.
      constructor; [apply IH; exact Hrest|].
      destruct rest as [|y rest']; cbn [insert_by_name].
      * constructor. unfold by_name. lia.
      * destruct (name img <=? name y)%Z.
        -- constructor. unfold by_name. lia.
        -- inversion Hhd; subst. constructor. assumption.
Qed.

Lemma sort_by_name_sorted (l : list (ThumbnailImage F)) :
  Sorted by_name (sort_by_name l).
Proof.
  induction l as [|x rest IH]; [constructor|].
  cbn [sort_by_name fold_right]. apply insert_by_name_sorted. exact IH.
Qed.

Lemma gl_load_all_ok (imgs : list (ThumbnailImage F)) :
  gl_load_all imgs = Ok tt ->
  Forall (fun img => exists im, id_image img = Some im /\ gl_load im = false) imgs.
Proof.
  induction imgs as [|img rest IH]; intros H; [constructor|].
  cbn [gl_load_all] in H.
  destruct (id_image img) as [im|] eqn:E; [|discriminate H].
  destruct (gl_load im) eqn:G; [discriminate H|].
  constructor; [exists im; split; [exact E | exact G] | apply IH; exact H].
Qed.

Lemma load_files_spec (w : World) (folder : string) (files : list string)
    (imgs imgs' : list (ThumbnailImage F)) :
  load_files w folder files imgs = Ok imgs' ->
  exists keys,
    Forall2 (fun f k => int_of_str w (before_dot f) = Ok k) files keys
    /\ imgs' = imgs ++ map (fun fk => new_thumbnail w folder (fst fk) (snd fk))
                           (combine files keys).
Proof.
  revert imgs imgs'. induction files as [|f rest IH]; intros imgs imgs' H.
  - cbn [load_files] in H. injection H as <-. exists []. split; [constructor|].
    cbn. rewrite app_nil_r. reflexivity.
  - cbn [load_files] in H. bind_inv H n Hn.
    destruct (IH _ _ H) as (keys & Hkeys & ->).
    exists (n :: keys). split; [constructor; assumption|].
    cbn [combine map fst snd]. rewrite <- app_assoc. reflexivity.
Qed.

Lemma load_result (ctx : BpyContext) (w : World) (st st' : State F) :
  load_edit_thumbnails ctx w st = Ok st' ->
  exists loaded : list (ThumbnailImage F),
    ((listdir w (edit_shots_folder ctx) = Raise FileNotFoundError /\ loaded = [])
     \/ exists files keys,
          listdir w (edit_shots_folder ctx) = Ok files
          /\ Forall2 (fun f k => int_of_str w (before_dot f) = Ok k) files keys
          /\ loaded = map (fun fk => new_thumbnail w (edit_shots_folder ctx) (fst fk) (snd fk))
                          (combine files keys))
    /\ thumbnail_images st' = sort_by_name (thumbnail_images st ++ loaded)
    /\ gl_load_all (thumbnail_images st') = Ok tt
    /\ thumbnail_size st' = thumbnail_size st.
Proof.
  intros H. unfold load_edit_thumbnails in H.
  bind_inv H st1 H1. bind_inv H u Hgl. destruct u. injection H as <-.
  cbn [thumbnail_images set_thumbnail_images add_log thumbnail_size] in *.
  destruct (listdir w (edit_shots_folder ctx)) as [files|e].
  - bind_inv H1 imgs Himgs. injection H1 as <-.
    destruct (load_files_spec _ _ _ _ _ Himgs) as (keys & Hkeys & ->).
    cbn [thumbnail_images set_thumbnail_images thumbnail_size] in *.
    eexists. split; [right; exists files, keys; split; [reflexivity|]; split; [exact Hkeys | reflexivity]|].
    split; [reflexivity|]. split; [exact Hgl | reflexivity].
  - destruct e; try discriminate H1. injection H1 as <-.
    cbn [thumbnail_images add_log thumbnail_size] in *.
    exists []. split; [left; split; reflexivity|].
    rewrite app_nil_r. split; [reflexivity|]. split; [exact Hgl | reflexivity].
Qed.

(** X4. A load that returns has either found no folder and added nothing,
    or added one image per file of the folder, numbered by the text before
    the first dot of its name.  The list holds the images it held and the
    new ones, in ascending order of the numbers; every image has a picture,
    uploaded without error; the thumbnail size is untouched. *)
Theorem load_sorts_and_uploads (ctx : BpyContext) (w : World) (st st' : State F) :
  load_edit_thumbnails ctx w st = Ok st' ->
  exists loaded : list (ThumbnailImage F),
    ((listdir w (edit_shots_folder ctx) = Raise FileNotFoundError /\ loaded = [])
     \/ exists files keys,
          listdir w (edit_shots_folder ctx) = Ok files
          /\ Forall2 (fun f k => int_of_str w (before_dot f) = Ok k) files keys
          /\ loaded = map (fun fk => new_thumbnail w (edit_shots_folder ctx) (fst fk) (snd fk))
                          (combine files keys))
    /\ Sorted by_name (thumbnail_images st')
    /\ Permutation (thumbnail_images st') (thumbnail_images st ++ loaded)
    /\ List.length (thumbnail_images st')
       = (List.length (thumbnail_images st) + List.length loaded)%nat
    /\ Forall (fun img => exists im, id_image img = Some im /\ gl_load im = false)
              (thumbnail_images st')
    /\ thumbnail_size st' = thumbnail_size st.
Proof.
  intros H.
  destruct (load_result ctx w st st' H) as (loaded & Hloaded & Eimgs & Hgl & Esz).
  exists loaded. split; [exact Hloaded|].
  split; [rewrite Eimgs; apply sort_by_name_sorted|].
  split; [rewrite Eimgs; apply sort_by_name_perm|].
  split; [rewrite Eimgs, (Permutation_length (sort_by_name_perm _)), length_app; reflexivity|].
  split; [apply gl_load_all_ok; exact Hgl | exact Esz].
Qed.

(** X5. The loader recovers from a missing folder only.  Any other error
    of the directory listing reaches the caller, and so does the error
    raised for the first file whose name does not start with a number. *)
Theorem load_propagates_errors (ctx : BpyContext) (w : World) (st : State F) :
  (forall e, listdir w (edit_shots_folder ctx) = Raise e ->
             e <> FileNotFoundError ->
             load_edit_thumbnails ctx w st = Raise e)
  /\ (forall good bad rest keys e,
        listdir w (edit_shots_folder ctx) = Ok (good ++ bad :: rest) ->
        Forall2 (fun f k => int_of_str w (before_dot f) = Ok k) good keys ->
        int_of_str w (before_dot bad) = Raise e ->
        e <> FileNotFoundError ->
        load_edit_thumbnails ctx w st = Raise e).
Proof.
  split.
  - intros e Hdir Hne. unfold load_edit_thumbnails. rewrite Hdir.
    destruct e; try reflexivity. contradiction.
  - intros good bad rest keys e Hdir Hgood Hbad _.
    unfold load_edit_thumbnails. rewrite Hdir. clear Hdir.
    assert (Hfiles : forall imgs, load_files w (edit_shots_folder ctx) (good ++ bad :: rest) imgs
                                  = Raise e).
    { induction Hgood as [|f k good keys Hk Hrest IH]; intros imgs.
      - cbn [app load_files]. rewrite Hbad. reflexivity.
      - cbn [app load_files]. rewrite Hk. cbn [py_bind]. apply IH. }
    rewrite Hfiles. reflexivity.
Qed.

End Loader.

(** ** Region sizing never enlarges *)

Lemma visible_extent_nonneg (ty : string) (extent : Region -> Z) (rs : list Region) :
  (0 <= visible_extent ty extent rs)%Z.
Proof.
  induction rs as [|r rs IH]; cbn [visible_extent fold_right]; [lia|].
  fold (visible_extent ty extent rs).
  destruct ((rtype r =? ty)%string && (1 <? extent r)%Z) eqn:E; [|exact IH].
  apply andb_prop in E. destruct E as [_ E]. apply Z.ltb_lt in E. lia.
Qed.

Lemma tools_offset_bounds (rs : list Region) (d : Z) :
  (d = 0 \/ 1 < d)%Z ->
  ((tools_offset d rs = 0 \/ 1 < tools_offset d rs)
   /\ tools_offset d rs <= d + visible_extent "TOOLS" width rs)%Z.
Proof.
  revert d. induction rs as [|r rs IH]; intros d Hd.
  - cbn. split; [exact Hd | lia].
  - cbn [tools_offset fold_left visible_extent fold_right].
    fold (visible_extent "TOOLS" width rs).
    destruct ((rtype r =? "TOOLS")%string && (1 <? width r)%Z) eqn:E.
    + assert (Hw : (1 < width r)%Z).
      { apply andb_prop in E. destruct E as [_ E]. apply Z.ltb_lt in E. exact E. }
      destruct (IH (width r) (or_intror Hw)) as [H1 H2].
      unfold tools_offset in *. split; [exact H1 | lia].
    + destruct (IH d Hd) as [H1 H2]. unfold tools_offset in *. split; [exact H1 | lia].
Qed.

(** X6. Region sizing never enlarges the region: the usable width and
    height are at most the raw ones, the offset is 0 or more than one pixel,
    and the offset plus the usable width stays within the raw width, so the
    shifted grid never reaches past the right edge of the region. *)
Theorem region_size_within_raw (ctx : BpyContext) :
  let total_available_w := fst (fst (region_size ctx)) in
  let total_available_h := snd (fst (region_size ctx)) in
  let start_w := snd (region_size ctx) in
  (total_available_w <= width (region ctx)
   /\ total_available_h <= height (region ctx)
   /\ (start_w = 0 \/ 1 < start_w)
   /\ start_w + total_available_w <= width (region ctx))%Z.
Proof.
  cbv zeta. unfold region_size.
  destruct (use_region_overlap ctx); cbn [fst snd]; [|lia].
  rewrite fold_discount_region. cbn [fst snd].
  pose proof (visible_extent_nonneg "UI" width (area_regions ctx)) as Hui.
  pose proof (visible_extent_nonneg "TOOLS" width (area_regions ctx)) as Htools.
  pose proof (visible_extent_nonneg "HEADER" height (area_regions ctx)) as Hheader.
  destruct (tools_offset_bounds (area_regions ctx) 0 (or_introl eq_refl)) as [Hoff Hle].
  repeat split; lia.
Qed.

(** ** Shot durations *)

Local Open Scope Z_scope.

Lemma int_property_ok (z : Z) : - 2 ^ 31 <= z < 2 ^ 31 -> int_property z = Ok z.
Proof.
  intros [Hlo Hhi]. unfold int_property.
  apply Z.leb_le in Hlo. apply Z.ltb_lt in Hhi. rewrite Hlo, Hhi. reflexivity.
Qed.

Lemma int_property_inv (z d : Z) : int_property z = Ok d -> d = z.
Proof.
  unfold int_property. destruct ((- 2 ^ 31 <=? z) && (z <? 2 ^ 31)); intros H.
  - injection H as <-. reflexivity.
  - discriminate H.
Qed.

Lemma shot_durations_snoc (starts : list Z) (s end_frame : Z) :
  shot_durations (starts ++ [s]) end_frame = shot_durations starts s ++ [end_frame - s].
Proof.
  induction starts as [|a rest IH]; [reflexivity|].
  destruct rest as [|b rest'].
  - reflexivity.
  - change (shot_durations ((a :: b :: rest') ++ [s]) end_frame)
      with ((b - a) :: shot_durations ((b :: rest') ++ [s]) end_frame).
    rewrite IH. reflexivity.
Qed.

Lemma shot_durations_length (starts : list Z) (end_frame : Z) :
  List.length (shot_durations starts end_frame) = List.length starts.
Proof.
  induction starts as [|a rest IH]; [reflexivity|].
  destruct rest as [|b rest']; [reflexivity|].
  change (shot_durations (a :: b :: rest') end_frame)
    with ((b - a) :: shot_durations (b :: rest') end_frame).
  cbn [List.length] in *. rewrite IH. reflexivity.
Qed.

(** The durations of a sequence add up to the span from its first start
    to the end frame. *)
Lemma shot_durations_sum (starts : list Z) (end_frame : Z) :
  starts <> [] ->
  fold_right Z.add 0 (shot_durations starts end_frame) = end_frame - hd 0 starts.
Proof.
  induction starts as [|a rest IH]; intros Hne; [contradiction|].
  destruct rest as [|b rest'].
  - cbn. lia.
  - change (shot_durations (a :: b :: rest') end_frame)
      with ((b - a) :: shot_durations (b :: rest') end_frame).
    cbn [fold_right hd]. rewrite IH by discriminate. cbn [hd]. lia.
Qed.

Lemma shot_durations_nonneg (starts : list Z) (end_frame : Z) :
  Sorted Z.le starts -> last starts end_frame <= end_frame ->
  Forall (fun d => 0 <= d) (shot_durations starts end_frame).
Proof.
  induction starts as [|a rest IH]; intros Hs Hlast; [constructor|].
  destruct rest as [|b rest'].
  - cbn in *. constructor; [lia | constructor].
  - change (shot_durations (a :: b :: rest') end_frame)
      with ((b - a) :: shot_durations (b :: rest') end_frame).
    inversion Hs as [|? ? Hrest Hhd]; subst. inversion Hhd; subst.
    constructor; [lia|]. apply IH; [exact Hrest | exact Hlast].
Qed.

Lemma last_nonempty_default (l : list Z) (d d' : Z) :
  l <> [] -> last l d = last l d'.
Proof.
  induction l as [|a rest IH]; intros Hne; [contradiction|].
  destruct rest as [|b rest']; [reflexivity|].
  change (last (a :: b :: rest') d) with (last (b :: rest') d).
  change (last (a :: b :: rest') d') with (last (b :: rest') d').
  apply IH. discriminate.
Qed.

(** The loop, read on the collection in its own order. *)
Lemma duration_loop_spec (rev_shots rev_shots' : list Shot) (last_frame total total' : Z) :
  duration_loop rev_shots last_frame total = Ok (rev_shots', total') ->
  Forall2 (fun old new => new = set_duration old (duration new)) rev_shots rev_shots'
  /\ map duration (rev rev_shots')
     = shot_durations (rev (map frame_start rev_shots)) last_frame
  /\ total' = total + fold_right Z.add 0 (map duration rev_shots').
Proof.
  revert rev_shots' last_frame total total'.
  induction rev_shots as [|shot rest IH]; intros rev_shots' last_frame total total' H.
  - cbn [duration_loop] in H. injection H as <- <-. cbn.
    split; [constructor|]. split; [reflexivity | lia].
  - cbn [duration_loop] in H. bind_inv H d Hd. apply int_property_inv in Hd. subst d.
    cbn [frame_start duration set_duration] in H.
    bind_inv H r Hr. destruct r as [rest' t']. injection H as <- <-. cbn [fst snd] in *.
    destruct (IH _ _ _ _ Hr) as (Hsame & Hdur & Htot).
    split; [constructor; [reflexivity | exact Hsame]|].
    split.
    + cbn [rev map duration set_duration]. rewrite map_app, Hdur. cbn [map duration].
      rewrite shot_durations_snoc. reflexivity.
    + cbn [map fold_right duration set_duration]. rewrite Htot. lia.
Qed.

Lemma Forall2_set_duration_fields (l l' : list Shot) :
  Forall2 (fun old new => new = set_duration old (duration new)) l l' ->
  map frame_start l' = map frame_start l
  /\ map shot_name l' = map shot_name l
  /\ List.length l' = List.length l.
Proof.
  induction 1 as [|a b l l' Hab Hrest IH]; [repeat split; reflexivity|].
  destruct IH as (H1 & H2 & H3). cbn [map List.length]. rewrite H1, H2, H3, Hab.
  repeat split; reflexivity.
Qed.

Lemma fold_add_rev (l : list Z) : fold_right Z.add 0 (rev l) = fold_right Z.add 0 l.
Proof.
  induction l as [|a l IH]; [reflexivity|].
  cbn [rev]. rewrite fold_right_app. cbn [fold_right].
  rewrite <- IH. generalize (rev l). intros l'. induction l' as [|b l' IH']; cbn; lia.
Qed.

Lemma calculate_shots_duration_inv (scene scene' : Scene) :
  calculate_shots_duration scene = Finished scene' ->
  shots scene <> []
  /\ frame_end scene' = frame_end scene
  /\ map frame_start (shots scene') = map frame_start (shots scene)
  /\ map shot_name (shots scene') = map shot_name (shots scene)
  /\ map duration (shots scene')
     = shot_durations (map frame_start (shots scene))
         (Z.max (frame_end scene) (last (map frame_start (shots scene)) 0))
  /\ total_shot_duration scene' = fold_right Z.add 0 (map duration (shots scene')).
Proof.
  unfold calculate_shots_duration. intros H.
  destruct (rev (shots scene)) as [|last_shot rest] eqn:Erev; [discriminate H|].
  assert (Hne : shots scene <> []).
  { intros E. rewrite E in Erev. discriminate Erev. }
  assert (Hlast : last (map frame_start (shots scene)) 0 = frame_start last_shot).
  { rewrite <- (rev_involutive (shots scene)), Erev. cbn [rev].
    rewrite map_app. cbn [map]. apply last_last. }
  destruct (duration_loop (last_shot :: rest)
              (Z.max (frame_end scene) (frame_start last_shot)) 0)
    as [[rev_shots' total']|e] eqn:Eloop; [|discriminate H].
  injection H as <-. cbn [frame_end shots total_shot_duration].
  destruct (duration_loop_spec _ _ _ _ _ Eloop) as (Hsame & Hdur & Htot).
  destruct (Forall2_set_duration_fields _ _ Hsame) as (Hfs & Hnames & _).
  split; [exact Hne|]. split; [reflexivity|].
  rewrite <- Erev in Hfs, Hnames, Hdur.
  split; [rewrite !map_rev, Hfs, <- map_rev, rev_involutive; reflexivity|].
  split; [rewrite !map_rev, Hnames, <- map_rev, rev_involutive; reflexivity|].
  split.
  - rewrite Hdur, <- map_rev, rev_involutive, Hlast. reflexivity.
  - rewrite Htot, map_rev, fold_add_rev. lia.
Qed.

(** X13. When the duration calculation returns, every shot lasts from its
    start frame to the start frame of the next shot, and the last shot to
    the larger of the scene's end frame and its own start; start frames and
    names are unchanged; the total assigned is the sum of the durations,
    which is that end minus the start frame of the first shot. *)
Theorem calculate_shots_duration_spec (scene scene' : Scene) :
  calculate_shots_duration scene = Finished scene' ->
  let starts := map frame_start (shots scene) in
  let end_frame := Z.max (frame_end scene) (last starts 0) in
  map frame_start (shots scene') = starts
  /\ map shot_name (shots scene') = map shot_name (shots scene)
  /\ frame_end scene' = frame_end scene
  /\ map duration (shots scene') = shot_durations starts end_frame
  /\ total_shot_duration scene' = fold_right Z.add 0 (map duration (shots scene'))
  /\ total_shot_duration scene' = end_frame - hd 0 starts.
Proof.
  intros H. cbv zeta.
  destruct (calculate_shots_duration_inv scene scene' H)
    as (Hne & Hend & Hfs & Hnames & Hdur & Htot).
  repeat split; try assumption.
  rewrite Htot, Hdur. apply shot_durations_sum.
  intros E. apply Hne. destruct (shots scene); [reflexivity | discriminate E].
Qed.

(** X14. When the shots are in ascending order of start frame, no
    duration is negative, and the total is not negative either. *)
Theorem calculate_shots_duration_nonneg (scene scene' : Scene) :
  Sorted Z.le (map frame_start (shots scene)) ->
  calculate_shots_duration scene = Finished scene' ->
  Forall (fun shot => 0 <= duration shot) (shots scene')
  /\ 0 <= total_shot_duration scene'.
Proof.
  intros Hs H.
  destruct (calculate_shots_duration_inv scene scene' H)
    as (Hne & Hend & Hfs & Hnames & Hdur & Htot).
  assert (Hall : Forall (fun d => 0 <= d) (map duration (shots scene'))).
  { rewrite Hdur. apply shot_durations_nonneg; [exact Hs|].
    set (starts := map frame_start (shots scene)).
    assert (Hstarts : starts <> []).
    { unfold starts. intros E. apply Hne.
      destruct (shots scene); [reflexivity | discriminate E]. }
    rewrite (last_nonempty_default starts _ 0 Hstarts). lia. }
  split.
  - clear - Hall. induction (shots scene') as [|shot l IH]; [constructor|].
    cbn [map] in Hall. inversion Hall; subst. constructor; [assumption | apply IH; assumption].
  - rewrite Htot. clear - Hall. induction Hall as [|d l Hd Hl IH]; cbn [fold_right]; lia.
Qed.

Lemma duration_loop_returns (rev_shots : list Shot) (last_frame total : Z) :
  Forall frame_range (map frame_start rev_shots) -> frame_range last_frame ->
  exists r, duration_loop rev_shots last_frame total = Ok r.
Proof.
  revert last_frame total.
  induction rev_shots as [|shot rest IH]; intros last_frame total Hall Hlast.
  - eexists. reflexivity.
  - cbn [map] in Hall. inversion Hall as [|? ? Hshot Hrest]; subst.
    cbn [duration_loop]. rewrite int_property_ok by (unfold frame_range in *; lia).
    cbn [py_bind frame_start set_duration].
    destruct (IH (frame_start shot)
                (total + duration (set_duration shot (last_frame - frame_start shot)))
                Hrest Hshot) as (r & Hr).
    cbn [frame_start duration set_duration] in Hr |- *. rewrite Hr. cbn [py_bind].
    eexists. reflexivity.
Qed.

(** X15. With at least one shot, and the end frame and every start frame
    between -2^30 and 2^30, the duration calculation returns: no
    assignment to a duration leaves the 32-bit range. *)
Theorem calculate_shots_duration_returns (scene : Scene) :
  shots scene <> [] ->
  frame_range (frame_end scene) ->
  Forall frame_range (map frame_start (shots scene)) ->
  exists scene', calculate_shots_duration scene = Finished scene'.
Proof.
  intros Hne Hend Hall. unfold calculate_shots_duration.
  destruct (rev (shots scene)) as [|last_shot rest] eqn:Erev.
  - exfalso. apply Hne. rewrite <- (rev_involutive (shots scene)), Erev. reflexivity.
  - assert (Hrev : Forall frame_range (map frame_start (last_shot :: rest))).
    { rewrite <- Erev, map_rev. apply Forall_rev. exact Hall. }
    assert (Hlast : frame_range (frame_start last_shot)).
    { cbn [map] in Hrev. inversion Hrev; assumption. }
    destruct (duration_loop_returns (last_shot :: rest)
                (Z.max (frame_end scene) (frame_start last_shot)) 0 Hrev)
      as ([rev_shots' total'] & Hr).
    { unfold frame_range in *. lia. }
    rewrite Hr. eexists. reflexivity.
Qed.

(** ** The sync operator *)

Section OperatorProps.

Context {F : Type} {PF : PyFloat F}.

Lemma add_shots_spec (imgs : list (ThumbnailImage F)) (shots0 shots' : list Shot) :
  add_shots imgs shots0 = Ok shots' ->
  exists new_shots,
    shots' = shots0 ++ new_shots
    /\ map frame_start new_shots = map (@name F) imgs
    /\ map shot_name new_shots = map (fun img => str_of_int (name img)) imgs.
Proof.
  revert shots0 shots'. induction imgs as [|img rest IH]; intros shots0 shots' H.
  - cbn [add_shots] in H. injection H as <-. exists []. rewrite app_nil_r.
    repeat split; reflexivity.
  - cbn [add_shots] in H. bind_inv H start Hstart. apply int_property_inv in Hstart. subst start.
    destruct (IH _ _ H) as (new_shots & -> & Hfs & Hnames).
    eexists (_ :: new_shots). rewrite <- app_assoc. cbn [app].
    split; [reflexivity|]. cbn [map frame_start shot_name]. rewrite Hfs, Hnames.
    split; reflexivity.
Qed.

Lemma execute_inv (ctx : BpyContext) (w : World) (scene scene' : Scene) (st st' : State F) :
  execute ctx w scene st = Finished (scene', st') ->
  exists st1 new_shots,
    load_edit_thumbnails ctx w (set_thumbnail_images [] st) = Ok st1
    /\ add_shots (thumbnail_images st1) [] = Ok new_shots
    /\ calculate_shots_duration
         {| frame_end := frame_end scene;
            shots := new_shots;
            total_shot_duration := total_shot_duration scene |} = Finished scene'
    /\ fit_thumbnails_in_region ctx st1 = Ok st'.
Proof.
  unfold execute. cbn [frame_end shots total_shot_duration]. intros H.
  destruct (load_edit_thumbnails ctx w (set_thumbnail_images [] st)) as [st1|e] eqn:Eload;
    [|discriminate H].
  destruct (add_shots (thumbnail_images st1) []) as [new_shots|e] eqn:Eadd;
    [|discriminate H].
  destruct (calculate_shots_duration _) as [scene1| |e] eqn:Ecalc; try discriminate H.
  destruct (fit_thumbnails_in_region ctx st1) as [st2|e] eqn:Efit; [|discriminate H].
  injection H as <- <-. exists st1, new_shots.
  split; [reflexivity|]. split; [exact Eadd|]. split; [exact Ecalc | exact Efit].
Qed.

Lemma sorted_by_name_starts (imgs : list (ThumbnailImage F)) :
  Sorted by_name imgs -> Sorted Z.le (map (@name F) imgs).
Proof.
  induction 1 as [|img rest Hrest IH Hhd]; [constructor|].
  cbn [map]. constructor; [exact IH|].
  destruct Hhd as [|x rest' Hx]; cbn [map]; constructor. exact Hx.
Qed.

Lemma map_name_new_thumbnails (w : World) (folder : string) (files : list string)
    (keys : list Z) :
  List.length files = List.length keys ->
  map (@name F)
    (map (fun fk => new_thumbnail w folder (fst fk) (snd fk)) (combine files keys))
  = keys.
Proof.
  revert keys. induction files as [|f rest IH]; intros [|k keys] Hlen;
    try discriminate Hlen; [reflexivity|].
  cbn [combine map fst snd new_thumbnail name]. rewrite IH; [reflexivity|].
  injection Hlen as Hlen. exact Hlen.
Qed.

Lemma Forall2_same_length {A B : Type} (P : A -> B -> Prop) (l : list A) (l' : list B) :
  Forall2 P l l' -> List.length l = List.length l'.
Proof. induction 1; cbn [List.length]; congruence. Qed.

(** X16. A sync that finishes has rebuilt the breakdown from the folder
    alone: the folder holds at least one file, the start frames of the
    shots are the numbers of its files in ascending order, one shot per
    thumbnail and in the order of the thumbnails, each named by its number;
    each shot lasts until the next one starts and the last one until the
    later of the scene's end frame and its own start, so no duration is
    negative; the total is that end minus the first start. *)
Theorem execute_rebuilds_breakdown (ctx : BpyContext) (w : World) (scene scene' : Scene)
    (st st' : State F) :
  execute ctx w scene st = Finished (scene', st') ->
  let starts := map (@name F) (thumbnail_images st') in
  let end_frame := Z.max (frame_end scene) (last starts 0) in
  (exists files keys,
      listdir w (edit_shots_folder ctx) = Ok files
      /\ files <> []
      /\ Forall2 (fun f k => int_of_str w (before_dot f) = Ok k) files keys
      /\ Permutation keys starts)
  /\ Sorted Z.le starts
  /\ map frame_start (shots scene') = starts
  /\ map shot_name (shots scene') = map str_of_int starts
  /\ map duration (shots scene') = shot_durations starts end_frame
  /\ Forall (fun shot => 0 <= duration shot) (shots scene')
  /\ total_shot_duration scene' = end_frame - hd 0 starts
  /\ frame_end scene' = frame_end scene.
Proof.
  intros H. cbv zeta.
  destruct (execute_inv ctx w scene scene' st st' H)
    as (st1 & new_shots & Hload & Hadd & Hcalc & Hfit).
  destruct (add_shots_spec _ _ _ Hadd) as (new_shots' & E & Hfs & Hnames).
  cbn [app] in E. subst new_shots'.
  destruct (calculate_shots_duration_inv _ _ Hcalc)
    as (Hne & Hend & Hfs' & Hnames' & Hdur & Htot).
  cbn [frame_end shots total_shot_duration] in *.
  destruct (fit_result_frame ctx st1 st' Hfit) as (Hsame & _).
  assert (Hnm : map (@name F) (thumbnail_images st') = map (@name F) (thumbnail_images st1)).
  { apply (f_equal (map snd)) in Hsame. rewrite !map_map in Hsame. exact Hsame. }
  rewrite Hnm. clear Hsame Hnm Hfit.
  destruct (load_result ctx w _ st1 Hload) as (loaded & Hloaded & Eimgs & _ & _).
  cbn [thumbnail_images set_thumbnail_images app] in Eimgs.
  assert (Hsorted : Sorted Z.le (map (@name F) (thumbnail_images st1))).
  { apply sorted_by_name_starts. rewrite Eimgs. apply sort_by_name_sorted. }
  assert (Hstarts : map (@name F) (thumbnail_images st1) <> []).
  { rewrite <- Hfs. intros E. apply Hne. destruct new_shots; [reflexivity | discriminate E]. }
  split.
  { destruct Hloaded as [[_ ->] | (files & keys & Hdir & Hkeys & ->)].
    - exfalso. apply Hstarts. rewrite Eimgs. reflexivity.
    - exists files, keys. split; [exact Hdir|].
      split.
      + intros ->. apply Hstarts. rewrite Eimgs. reflexivity.
      + split; [exact Hkeys|]. rewrite Eimgs.
        apply Permutation_sym.
        rewrite <- (map_name_new_thumbnails w (edit_shots_folder ctx) files keys
                      (Forall2_same_length _ _ _ Hkeys)) at 2.
        apply Permutation_map. apply sort_by_name_perm. }
  split; [exact Hsorted|].
  split; [rewrite Hfs', Hfs; reflexivity|].
  split; [rewrite Hnames', Hnames, map_map; reflexivity|].
  rewrite Hfs in Hdur.
  split; [exact Hdur|].
  assert (Hall : Forall (fun d => 0 <= d) (map duration (shots scene'))).
  { rewrite Hdur. apply shot_durations_nonneg; [exact Hsorted|].
    rewrite (last_nonempty_default _ _ 0 Hstarts). lia. }
  split.
  { clear - Hall. induction (shots scene') as [|shot l IH]; [constructor|].
    cbn [map] in Hall. inversion Hall; subst.
    constructor; [assumption | apply IH; assumption]. }
  split; [|exact Hend].
  rewrite Htot, Hdur. apply shot_durations_sum. exact Hstarts.
Qed.

Lemma load_from_nothing (ctx : BpyContext) (w : World) (st : State F) :
  listdir w (edit_shots_folder ctx) = Raise FileNotFoundError
  \/ listdir w (edit_shots_folder ctx) = Ok [] ->
  exists st1, load_edit_thumbnails ctx w (set_thumbnail_images [] st) = Ok st1
              /\ thumbnail_images st1 = [].
Proof.
  intros [Hdir | Hdir]; unfold load_edit_thumbnails; rewrite Hdir;
    cbn; eexists; (split; [reflexivity|]); reflexivity.
Qed.

(** X17. The sync fails with IndexError exactly when there is no
    thumbnail to make a shot of, that is when the folder is missing or
    empty, whatever the breakdown and the thumbnails held before. *)
Theorem execute_index_error (ctx : BpyContext) (w : World) (scene : Scene) (st : State F) :
  execute ctx w scene st = IndexError
  <-> (listdir w (edit_shots_folder ctx) = Raise FileNotFoundError
       \/ listdir w (edit_shots_folder ctx) = Ok []).
Proof.
  split.
  - unfold execute. cbn [frame_end shots total_shot_duration]. intros H.
    destruct (load_edit_thumbnails ctx w (set_thumbnail_images [] st)) as [st1|e] eqn:Hload;
      [|discriminate H].
    destruct (add_shots (thumbnail_images st1) []) as [new_shots|e] eqn:Hadd;
      [|discriminate H].
    destruct (add_shots_spec _ _ _ Hadd) as (new_shots' & E & Hfs & _).
    cbn [app] in E. subst new_shots'.
    assert (Hnil : new_shots = []).
    { destruct new_shots as [|s l]; [reflexivity|]. exfalso.
      unfold calculate_shots_duration in H. cbn [shots frame_end] in H.
      destruct (rev (s :: l)) as [|last_shot rest] eqn:Erev.
      - apply (f_equal (@List.length Shot)) in Erev. rewrite length_rev in Erev.
        discriminate Erev.
      - destruct (duration_loop _ _ _) as [[? ?]|?]; [|discriminate H].
        destruct (fit_thumbnails_in_region ctx st1); discriminate H. }
    subst new_shots.
    assert (Himgs : thumbnail_images st1 = []).
    { destruct (thumbnail_images st1); [reflexivity | discriminate Hfs]. }
    destruct (load_result ctx w _ st1 Hload) as (loaded & Hloaded & Eimgs & _ & _).
    cbn [thumbnail_images set_thumbnail_images app] in Eimgs.
    assert (Hloaded_nil : loaded = []).
    { apply length_zero_iff_nil.
      rewrite <- (Permutation_length (sort_by_name_perm loaded)), <- Eimgs, Himgs.
      reflexivity. }
    destruct Hloaded as [[Hdir _] | (files & keys & Hdir & Hkeys & E)]; [left; exact Hdir|].
    right. rewrite Hdir. f_equal.
    rewrite Hloaded_nil in E.
    destruct Hkeys as [|f k files keys]; [reflexivity | discriminate E].
  - intros Hdir. destruct (load_from_nothing ctx w st Hdir) as (st1 & Hload & Hnil).
    unfold execute. rewrite Hload, Hnil. reflexivity.
Qed.

(** X18. While the list of thumbnails is empty and the folder is missing,
    every redraw tries the load again and logs its warning and its count
    again; the thumbnail size is not reset, so the handler renders an empty
    list when the size left by an earlier layout exceeds 5 pixels on both
    sides, and nothing otherwise. *)
Theorem draw_retries_missing_folder (ctx : BpyContext) (w : World) (st : State F) :
  thumbnail_images st = [] ->
  listdir w (edit_shots_folder ctx) = Raise FileNotFoundError ->
  exists st',
    draw_edit_thumbnails ctx w st = Ok st'
    /\ thumbnail_images st' = []
    /\ thumbnail_size st' = thumbnail_size st
    /\ log_records st'
       = log_records st ++ [LogWarning (edit_shots_folder ctx); LogInfo 0]
    /\ draw_calls st'
       = if fle (fst (thumbnail_size st)) (of_int 5)
            || fle (snd (thumbnail_size st)) (of_int 5)
         then draw_calls st
         else draw_calls st ++ [([], thumbnail_size st)].
Proof.
  intros Hnil Hdir. unfold draw_edit_thumbnails, load_edit_thumbnails.
  rewrite Hnil, Hdir.
  cbn [py_bind thumbnail_images add_log set_thumbnail_images]. rewrite Hnil.
  cbn [sort_by_name fold_right gl_load_all py_bind List.length].
  rewrite fit_on_empty by reflexivity. cbn [py_bind thumbnail_size add_log set_thumbnail_images].
  destruct (fle (fst (thumbnail_size st)) (of_int 5)
            || fle (snd (thumbnail_size st)) (of_int 5));
    eexists; (split; [reflexivity|]);
    cbn [thumbnail_images thumbnail_size log_records draw_calls add_draw_call add_log
         set_thumbnail_images];
    rewrite <- app_assoc; repeat split; reflexivity.
Qed.

End OperatorProps.

(** ** File names *)

(** X19. The number of a file is read from the text before the first dot
    of its name: a name made of a dot-free prefix, a dot and anything is cut
    back to the prefix, and a name with no dot is taken whole. *)
Theorem before_dot_prefix (prefix rest : string) :
  ~ In "."%char (list_ascii_of_string prefix) ->
  before_dot (prefix ++ String "."%char rest) = prefix
  /\ before_dot prefix = prefix.
Proof.
  induction prefix as [|c prefix IH]; intros Hdot.
  - split; reflexivity.
  - cbn [list_ascii_of_string In] in Hdot.
    assert (Hc : Ascii.eqb c "."%char = false).
    { apply Ascii.eqb_neq. intros E. apply Hdot. left. exact E. }
    destruct IH as [IH1 IH2]; [intros Hin; apply Hdot; right; exact Hin|].
    cbn [String.append before_dot]. rewrite Hc, IH1, IH2. split; reflexivity.
Qed.

(** ** The properties on sample inputs *)

Lemma fit_writes_positions_only_witness :
  exists st' : State PrimFloat.float,
    fit_thumbnails_in_region (window 550 550) (initial_state four_thumbnails) = Ok st'
    /\ map (fun img => name img) (thumbnail_images st') = [1; 2; 3; 4].
Proof.
  assert (H : exists st' : State PrimFloat.float,
             fit_thumbnails_in_region (window 550 550) (initial_state four_thumbnails)
             = Ok st')
    by (eexists; vm_compute; reflexivity).
  destruct H as (st' & H). exists st'. split; [exact H|].
  destruct (fit_writes_positions_only (window 550 550) (initial_state four_thumbnails) st' H)
    as (Hsame & _).
  apply (f_equal (map snd)) in Hsame. rewrite !map_map in Hsame. exact Hsame.
Defined.

Lemma fit_idempotent_witness :
  exists st' : State PrimFloat.float,
    fit_thumbnails_in_region (window 550 550) (initial_state four_thumbnails) = Ok st'
    /\ fit_thumbnails_in_region (window 550 550) st' = Ok st'.
Proof.
  assert (H : exists st' : State PrimFloat.float,
             fit_thumbnails_in_region (window 550 550) (initial_state four_thumbnails)
             = Ok st')
    by (eexists; vm_compute; reflexivity).
  destruct H as (st' & H). exists st'. split; [exact H|].
  exact (fit_idempotent (window 550 550) (initial_state four_thumbnails) st' H).
Defined.

Lemma draw_renders_when_large_witness :
  exists st' : State PrimFloat.float,
    draw_edit_thumbnails (window 550 550) no_folder (initial_state four_thumbnails) = Ok st'
    /\ log_records st' = []
    /\ draw_edit_thumbnails (window 550 550) (folder_of ["1.png"%string])
         (initial_state four_thumbnails) = Ok st'.
Proof.
  assert (H : exists st' : State PrimFloat.float,
             draw_edit_thumbnails (window 550 550) no_folder (initial_state four_thumbnails)
             = Ok st')
    by (eexists; vm_compute; reflexivity).
  destruct H as (st' & H). exists st'. split; [exact H|].
  destruct (draw_renders_when_large (window 550 550) no_folder
              (initial_state four_thumbnails) st' ltac:(discriminate) H)
    as (st1 & _ & _ & _ & Hlog & Hany & _).
  split; [exact Hlog | apply Hany].
Defined.

Lemma load_sorts_and_uploads_witness :
  exists st' : State PrimFloat.float,
    load_edit_thumbnails (window 550 550) (folder_of ["2.png"; "1.png"]%string)
      (initial_state []) = Ok st'
    /\ Sorted by_name (thumbnail_images st')
    /\ List.length (thumbnail_images st') = 2%nat.
Proof.
  assert (H : exists st' : State PrimFloat.float,
             load_edit_thumbnails (window 550 550) (folder_of ["2.png"; "1.png"]%string)
               (initial_state []) = Ok st')
    by (eexists; vm_compute; reflexivity).
  destruct H as (st' & H). exists st'. split; [exact H|].
  destruct (load_sorts_and_uploads (window 550 550) (folder_of ["2.png"; "1.png"]%string)
              (initial_state []) st' H)
    as (loaded & Hloaded & Hsorted & _ & Hlen & _).
  split; [exact Hsorted|].
  rewrite Hlen.
  destruct Hloaded as [[Hdir _] | (files & keys & Hdir & Hkeys & ->)]; [discriminate Hdir|].
  injection Hdir as <-.
  inversion Hkeys as [|f k fs ks Hk Hrest]; subst.
  inversion Hrest as [|f' k' fs' ks' Hk' Hrest']; subst.
  inversion Hrest'; subst. reflexivity.
Defined.

Lemma load_propagates_errors_witness :
  load_edit_thumbnails (F := PrimFloat.float) (window 550 550) locked_folder
    (initial_state []) = Raise OSError
  /\ load_edit_thumbnails (F := PrimFloat.float) (window 550 550)
       (folder_of ["1.png"; "cover.png"; "2.png"]%string) (initial_state [])
     = Raise ValueError.
Proof.
  split.
  - apply (proj1 (load_propagates_errors (window 550 550) locked_folder (initial_state []))
             OSError eq_refl).
    discriminate.
  - apply (proj2 (load_propagates_errors (window 550 550)
                    (folder_of ["1.png"; "cover.png"; "2.png"]%string) (initial_state []))
             ["1.png"%string] "cover.png"%string ["2.png"%string] [1] ValueError eq_refl).
    + repeat constructor.
    + reflexivity.
    + discriminate.
Defined.

Lemma calculate_shots_duration_spec_witness :
  exists scene',
    calculate_shots_duration (scene_of 250 [1; 101; 201]) = Finished scene'
    /\ map duration (shots scene') = [100; 100; 49]
    /\ total_shot_duration scene' = 249.
Proof.
  assert (H : exists scene',
             calculate_shots_duration (scene_of 250 [1; 101; 201]) = Finished scene')
    by (eexists; vm_compute; reflexivity).
  destruct H as (scene' & H). exists scene'. split; [exact H|].
  destruct (calculate_shots_duration_spec (scene_of 250 [1; 101; 201]) scene' H)
    as (_ & _ & _ & Hdur & _ & Htot).
  split; [exact Hdur | exact Htot].
Defined.

(** The end frame before the start of the last shot: the last shot gets
    no frame. *)
Lemma calculate_shots_duration_nonneg_witness :
  exists scene',
    calculate_shots_duration (scene_of 150 [1; 101; 201]) = Finished scene'
    /\ Forall (fun shot => 0 <= duration shot) (shots scene')
    /\ 0 <= total_shot_duration scene'.
Proof.
  assert (H : exists scene',
             calculate_shots_duration (scene_of 150 [1; 101; 201]) = Finished scene')
    by (eexists; vm_compute; reflexivity).
  destruct H as (scene' & H). exists scene'. split; [exact H|].
  apply (calculate_shots_duration_nonneg (scene_of 150 [1; 101; 201]) scene'); [|exact H].
  cbn. repeat constructor; lia.
Defined.

Lemma calculate_shots_duration_returns_witness :
  exists scene', calculate_shots_duration (scene_of 250 [201; 1; 101]) = Finished scene'.
Proof.
  apply calculate_shots_duration_returns.
  - discriminate.
  - unfold frame_range. cbn. lia.
  - cbn. repeat constructor; unfold frame_range; lia.
Defined.

Lemma execute_rebuilds_breakdown_witness :
  exists (scene' : Scene) (st' : State PrimFloat.float),
    execute (window 550 550) (folder_of ["20.png"; "1.png"; "8.png"]%string)
      (scene_of 250 [5]) (initial_state four_thumbnails) = Finished (scene', st')
    /\ Sorted Z.le (map (fun img => name img) (thumbnail_images st'))
    /\ map frame_start (shots scene') = map (fun img => name img) (thumbnail_images st')
    /\ Forall (fun shot => 0 <= duration shot) (shots scene').
Proof.
  assert (H : exists r : Scene * State PrimFloat.float,
             execute (window 550 550) (folder_of ["20.png"; "1.png"; "8.png"]%string)
               (scene_of 250 [5]) (initial_state four_thumbnails) = Finished r)
    by (eexists; vm_compute; reflexivity).
  destruct H as ([scene' st'] & H). exists scene', st'. split; [exact H|].
  destruct (execute_rebuilds_breakdown _ _ _ _ _ _ H)
    as (_ & Hsorted & Hfs & _ & _ & Hnonneg & _).
  split; [exact Hsorted|]. split; [exact Hfs | exact Hnonneg].
Defined.

Lemma execute_index_error_witness :
  execute (F := PrimFloat.float) (window 550 550) no_folder (scene_of 250 [5])
    (initial_state four_thumbnails) = IndexError
  /\ execute (F := PrimFloat.float) (window 550 550) (folder_of []) (scene_of 250 [5])
       (initial_state four_thumbnails) = IndexError.
Proof.
  split.
  - apply (proj2 (execute_index_error (window 550 550) no_folder (scene_of 250 [5])
                    (initial_state four_thumbnails))).
    left. reflexivity.
  - apply (proj2 (execute_index_error (window 550 550) (folder_of []) (scene_of 250 [5])
                    (initial_state four_thumbnails))).
    right. reflexivity.
Defined.

(** A size of 200 by 112 left by an earlier layout: the empty list is
    rendered. *)
Lemma draw_retries_missing_folder_witness :
  exists st' : State PrimFloat.float,
    draw_edit_thumbnails (window 550 550) no_folder
      (set_thumbnail_size (of_int 200, of_int 112) (initial_state [])) = Ok st'
    /\ log_records st' = [LogWarning "thumbs"; LogInfo 0]
    /\ draw_calls st' = [([], (of_int 200, of_int 112))].
Proof.
  destruct (draw_retries_missing_folder (window 550 550) no_folder
              (set_thumbnail_size (of_int 200, of_int 112)
                 (initial_state (F := PrimFloat.float) []))
              eq_refl eq_refl)
    as (st' & Hdraw & _ & _ & Hlog & Hcalls).
  exists st'. split; [exact Hdraw|]. split; [exact Hlog | exact Hcalls].
Defined.

Lemma before_dot_prefix_witness :
  before_dot ("0042" ++ String "."%char "v2.png") = "0042"%string
  /\ before_dot "0042" = "0042"%string.
Proof.
  apply before_dot_prefix. cbn. intros H.
  repeat (destruct H as [H|H]; [discriminate H|]). exact H.
Defined.
